(** * The OpenStack cloud provider: server lookup and address resolution

    A shallow embedding of
    [pkg/cloudprovider/providers/openstack/openstack.go] and
    [pkg/cloudprovider/providers/openstack/openstack_instances.go].

    Go strings are byte sequences and are modelled by [string] (a list of
    8-bit characters).  A Go function may panic, so every embedded function
    that indexes a slice or dereferences a pointer lives in the [outcome]
    monad; a Go result pair [(v, err)] is kept as a pair whose second
    component is an [option error].  Logging through glog has no effect on
    results and is left out. *)

From Stdlib Require Import List String Ascii Bool Arith ZArith Lia Permutation.
Import ListNotations.
Local Open Scope string_scope.
Local Open Scope list_scope.

Set Implicit Arguments.
Set Warnings "-register-all".

(** ** Errors and panics *)

Inductive error : Type :=
| ErrNotFound          (* "Failed to find object" *)
| ErrMultipleResults   (* "Multiple results where only one expected" *)
| ErrNoAddressFound    (* "No address found for host" *)
| ErrAttrNotFound      (* "Expected attribute not found" *)
| Errorf (msg : string) (* an error built by fmt.Errorf *)
| LibError (msg : string). (* an error handed up by a library call *)

Inductive outcome (A : Type) : Type :=
| Done (a : A)
| Panic (msg : string).

Arguments Done {A} a.
Arguments Panic {A} msg.

Definition bind {A B : Type} (m : outcome A) (k : A -> outcome B) : outcome B :=
  match m with
  | Done a => k a
  | Panic msg => Panic msg
  end.

Notation "x <- m ;; k" := (bind m (fun x => k))
  (at level 61, m at next level, right associativity).
Notation "' pat <- m ;; k" := (bind m (fun x => match x with pat => k end))
  (at level 61, pat pattern, m at next level, right associativity).

(** [l[i]] on a slice: a run-time panic when [i] is out of range. *)
Definition index {A : Type} (l : list A) (i : nat) : outcome A :=
  match nth_error l i with
  | Some a => Done a
  | None => Panic "index out of range"
  end.

(** [*p] on a pointer that may be nil. *)
Definition deref {A : Type} (p : option A) : outcome A :=
  match p with
  | Some a => Done a
  | None => Panic "nil pointer dereference"
  end.

(** A [for ... range] loop over a slice whose body may panic. *)
Fixpoint forRange {A S : Type} (body : S -> A -> outcome S) (l : list A) (s : S)
  : outcome S :=
  match l with
  | [] => Done s
  | a :: l' => s' <- body s a ;; forRange body l' s'
  end.

(** ** Run-time values of type [interface{}]

    [servers.Server.Addresses] is an [interface{}] filled by the JSON
    decoder.  [VMap] lists the entries of a [map[string]interface{}] in the
    order in which the [range] statement of the run visits them (Go leaves
    that order unspecified); [VOther] stands for every other dynamic type. *)

Inductive value : Type :=
| VNil
| VBool (b : bool)
| VFloat64 (bits : N)
| VString (s : string)
| VSlice (l : list value)
| VMap (m : list (string * value))
| VOther (dyntype : string).

(** [v, ok := m[k]] *)
Fixpoint lookup (m : list (string * value)) (k : string) : option value :=
  match m with
  | [] => None
  | (k', v) :: m' => if String.eqb k' k then Some v else lookup m' k
  end.

(** ** findAddrs *)

(** One turn of the loop of [findAddrs]; [Done ret] unchanged is [continue]. *)
Definition findAddrs_body (iptype : string) (ret : list string)
  (entry : string * value) : outcome (list string) :=
  let listblob := snd entry in
  match listblob with
  | VSlice list =>
      if (List.length list <? 1)%nat then Done ret else
      d <- index list 0 ;;
      match d with
      | VMap props =>
          match lookup props "addr" with
          | None => Done ret
          | Some tmp =>
              match tmp with
              | VString addr =>
                  match lookup props "OS-EXT-IPS:type" with
                  | None => Done ret
                  | Some tmp' =>
                      match tmp' with
                      | VString ipt =>
                          if String.eqb ipt iptype
                          then Done (ret ++ [addr])
                          else Done ret
                      | _ => Done ret
                      end
                  end
              | _ => Done ret
              end
          end
      | _ => Done ret
      end
  | _ => Done ret
  end.

Definition findAddrs (netblob : value) (iptype : string) : outcome (list string) :=
  let ret := [] in
  match netblob with
  | VMap networks => forRange (findAddrs_body iptype) networks ret
  | _ => Done ret
  end.

(** ** Servers, list options and pages *)

(** The fields of [servers.Server] that the provider reads. *)
Record Server : Type := {
  ID : string;
  Name : string;
  Status : string;
  Addresses : value;
  AccessIPv4 : string;
  AccessIPv6 : string
}.

Module ListOpts.
(** The fields of [servers.ListOpts] that the provider sets. *)
Record t : Type := { Name : string; Status : string }.
End ListOpts.

(** A [pagination.Page] of the server listing, seen through
    [servers.ExtractServers]. *)
Inductive Page : Type :=
| ServerPage (l : list Server)
| BrokenPage (e : error).

Definition ExtractServers (page : Page) : list Server * option error :=
  match page with
  | ServerPage l => (l, None)
  | BrokenPage e => ([], Some e)
  end.

(** What the next request of a pager brings. *)
Inductive fetch : Type :=
| Fetched (page : Page)
| FetchFailed (e : error).

(** A [pagination.Pager]: the requests it would make, in order. *)
Definition Pager : Type := list fetch.

(** A pager all of whose requests succeed. *)
Definition goodPages (pages : list (list Server)) : Pager :=
  map (fun l => Fetched (ServerPage l)) pages.

(** A [*gophercloud.ServiceClient] for the compute endpoint, seen through
    [servers.List]: the pager that answers given list options. *)
Definition ServiceClient : Type := ListOpts.t -> Pager.

Definition servers_List (client : ServiceClient) (opts : ListOpts.t) : Pager :=
  client opts.

(** Modelled from the spec: [Pager.EachPage] belongs to the SDK, to which
    the spec delegates the pagination mechanics.  Pages are requested one at
    a time and handed to the handler in order; the iteration ends after the
    last page, at a request that fails, or as soon as the handler returns an
    error or [false].  The handler is a closure over a variable of type [S];
    the result carries the error, the final value of that variable and the
    requests that were never made. *)
Fixpoint EachPage {S : Type}
  (handler : Page -> S -> outcome (bool * option error * S))
  (pager : Pager) (st : S) : outcome (option error * S * Pager) :=
  match pager with
  | [] => Done (None, st, [])
  | FetchFailed e :: rest => Done (Some e, st, rest)
  | Fetched page :: rest =>
      '(ok, err, st') <- handler page st ;;
      match err with
      | Some e => Done (Some e, st', rest)
      | None =>
          if (ok : bool) then EachPage handler rest st'
          else Done (None, st', rest)
      end
  end.

(** ** regexp.QuoteMeta and the name filter *)

(** The bytes that [regexp.QuoteMeta] escapes: [\.+*?()|[]{}^$]. *)
Definition special (b : ascii) : bool :=
  existsb (Ascii.eqb b)
    ["\"; "."; "+"; "*"; "?"; "("; ")"; "|"; "["; "]"; "{"; "}"; "^"; "$"]%char.

Fixpoint QuoteMeta (s : string) : string :=
  match s with
  | EmptyString => EmptyString
  | String b s' =>
      if special b then String "\" (String b (QuoteMeta s'))
      else String b (QuoteMeta s')
  end.

(** [fmt.Sprintf("^%s$", regexp.QuoteMeta(name))] *)
Definition nameFilter (name : string) : string :=
  "^" ++ QuoteMeta name ++ "$".

Definition byNameOpts (name : string) : ListOpts.t :=
  {| ListOpts.Name := nameFilter name; ListOpts.Status := "ACTIVE" |}.

(** ** getServerByName *)

Definition getServerByName_handler (page : Page) (serverList : list Server)
  : outcome (bool * option error * list Server) :=
  let '(s, err) := ExtractServers page in
  match err with
  | Some e => Done (false, Some e, serverList)
  | None =>
      let serverList := serverList ++ s in
      if (1 <? List.length serverList)%nat
      then Done (false, Some ErrMultipleResults, serverList)
      else Done (true, None, serverList)
  end.

(** [getServerByName] together with the requests its pager never made. *)
Definition getServerByName_run (client : ServiceClient) (name : string)
  : outcome ((option Server * option error) * Pager) :=
  let opts := byNameOpts name in
  let pager := servers_List client opts in
  let serverList := [] in
  '(err, serverList, unfetched) <- EachPage getServerByName_handler pager serverList ;;
  match err with
  | Some e => Done ((None, Some e), unfetched)
  | None =>
      if (List.length serverList =? 0)%nat
      then Done ((None, Some ErrNotFound), unfetched)
      else if (1 <? List.length serverList)%nat
      then Done ((None, Some ErrMultipleResults), unfetched)
      else s <- index serverList 0 ;; Done ((Some s, None), unfetched)
  end.

Definition getServerByName (client : ServiceClient) (name : string)
  : outcome (option Server * option error) :=
  r <- getServerByName_run client name ;; Done (fst r).

(** ** getAddressByName *)

Definition getAddressByName (api : ServiceClient) (name : string)
  : outcome (string * option error) :=
  '(srv, err) <- getServerByName api name ;;
  match err with
  | Some e => Done ("", Some e)
  | None =>
      srv <- deref srv ;;
      let s := "" in
      s <- (if String.eqb s ""
            then tmp <- findAddrs (Addresses srv) "fixed" ;;
                 if (1 <=? List.length tmp)%nat then index tmp 0 else Done s
            else Done s) ;;
      s <- (if String.eqb s ""
            then tmp <- findAddrs (Addresses srv) "floating" ;;
                 if (1 <=? List.length tmp)%nat then index tmp 0 else Done s
            else Done s) ;;
      let s := if String.eqb s "" then AccessIPv4 srv else s in
      let s := if String.eqb s "" then AccessIPv6 srv else s in
      if String.eqb s "" then Done ("", Some ErrNoAddressFound)
      else Done (s, None)
  end.

(** ** getServerByAddress *)

Definition getServerByAddress_handler (ip : string) (page : Page)
  (serverList : list Server) : outcome (bool * option error * list Server) :=
  let '(s, err) := ExtractServers page in
  match err with
  | Some e => Done (false, Some e, serverList)
  | None =>
      serverList <-
        forRange (fun serverList server =>
                    addrs <- findAddrs (Addresses server) "fixed" ;;
                    addr <- index addrs 0 ;;
                    if String.eqb addr ip
                    then Done (serverList ++ [server])
                    else Done serverList)
                 s serverList ;;
      Done (true, None, serverList)
  end.

Definition getServerByAddress (compute : ServiceClient) (ip : string)
  : outcome (option Server * option error) :=
  let opts := {| ListOpts.Name := ""; ListOpts.Status := "ACTIVE" |} in
  let pager := servers_List compute opts in
  let serverList := [] in
  '(err, serverList, _) <- EachPage (getServerByAddress_handler ip) pager serverList ;;
  match err with
  | Some e => Done (None, Some e)
  | None =>
      if (List.length serverList =? 0)%nat
      then Done (None, Some ErrNotFound)
      else if (1 <? List.length serverList)%nat
      then Done (None, Some ErrMultipleResults)
      else s <- index serverList 0 ;; Done (Some s, None)
  end.

(** ** strings.TrimSpace

    [strings.TrimSpace] removes the leading and the trailing white space, as
    [unicode.IsSpace] defines it, of a UTF-8 string: first from the left,
    then from the right.  A byte that does not start a valid encoding of a
    white-space rune stops the trimming. *)

Definition byte_in (b : ascii) (codes : list N) : bool :=
  existsb (N.eqb (N_of_ascii b)) codes.

(** '\t', '\n', '\v', '\f', '\r', ' ' *)
Definition space1 (a : ascii) : bool := byte_in a [9; 10; 11; 12; 13; 32]%N.

(** U+0085 (C2 85) and U+00A0 (C2 A0) *)
Definition space2 (a b : ascii) : bool :=
  byte_in a [194]%N && byte_in b [133; 160]%N.

(** U+1680 (E1 9A 80), U+2000..U+200A (E2 80 80..8A), U+2028, U+2029,
    U+202F (E2 80 A8, A9, AF), U+205F (E2 81 9F), U+3000 (E3 80 80) *)
Definition space3 (a b c : ascii) : bool :=
  (byte_in a [225]%N && byte_in b [154]%N && byte_in c [128]%N)
  || (byte_in a [226]%N && byte_in b [128]%N
      && byte_in c [128; 129; 130; 131; 132; 133; 134; 135; 136; 137; 138;
                    168; 169; 175]%N)
  || (byte_in a [226]%N && byte_in b [129]%N && byte_in c [159]%N)
  || (byte_in a [227]%N && byte_in b [128]%N && byte_in c [128]%N).

Fixpoint TrimLeft (s : string) : string :=
  match s with
  | EmptyString => EmptyString
  | String a s1 =>
      if space1 a then TrimLeft s1 else
      match s1 with
      | EmptyString => s
      | String b s2 =>
          if space2 a b then TrimLeft s2 else
          match s2 with
          | EmptyString => s
          | String c s3 => if space3 a b c then TrimLeft s3 else s
          end
      end
  end.

Fixpoint rev_string (s acc : string) : string :=
  match s with
  | EmptyString => acc
  | String a s' => rev_string s' (String a acc)
  end.

(** Trimming from the right, on the reversed string: its first byte is the
    last byte of the text. *)
Fixpoint TrimLeft_reversed (s : string) : string :=
  match s with
  | EmptyString => EmptyString
  | String c s1 =>
      if space1 c then TrimLeft_reversed s1 else
      match s1 with
      | EmptyString => s
      | String b s2 =>
          if space2 b c then TrimLeft_reversed s2 else
          match s2 with
          | EmptyString => s
          | String a s3 => if space3 a b c then TrimLeft_reversed s3 else s
          end
      end
  end.

Definition TrimRight (s : string) : string :=
  rev_string (TrimLeft_reversed (rev_string s EmptyString)) EmptyString.

Definition TrimSpace (s : string) : string := TrimRight (TrimLeft s).

(** ** The instance-identity resolver *)

Inductive result (A : Type) : Type :=
| Ok (a : A)
| Err (e : error).

Arguments Ok {A} a.
Arguments Err {A} e.

Module Response.
(** The fields of [http.Response] that the resolver reads; [Body] is what
    [ioutil.ReadAll(resp.Body)] returns. *)
Record t : Type := {
  StatusCode : Z;
  Status : string;
  Body : result string
}.
End Response.

(** The machine the process runs on: its files and the HTTP servers it can
    reach. *)
Record Host : Type := {
  ioutil_ReadFile : string -> result string;
  http_Get : string -> result Response.t
}.

Definition metadataUrl : string :=
  "http://169.254.169.254/openstack/2012-08-10/meta_data.json".

(** *** json.Unmarshal into [struct{ UUID string }]

    The decoder works on the document that the text denotes; [VMap] lists
    the members of an object in the order of the text.  A member is decoded
    into the field when its name equals "UUID" up to the case of the
    letters; a later member overwrites an earlier one; [null] leaves the
    field as it is; any other value that is not a string is a type error,
    and so is a document that is neither an object nor [null]. *)

(** The upper-case form of an ASCII letter. *)
Definition upper (b : ascii) : ascii :=
  let n := N_of_ascii b in
  if ((97 <=? n) && (n <=? 122))%N then ascii_of_N (n - 32) else b.

(** Equality of names up to the case of the letters. *)
Fixpoint eqFold (s t : string) : bool :=
  match s, t with
  | EmptyString, EmptyString => true
  | String a s', String b t' => Ascii.eqb (upper a) (upper b) && eqFold s' t'
  | _, _ => false
  end.

(** The members of an object, decoded in turn into the field [UUID]. *)
Fixpoint decodeUUID (members : list (string * value)) (UUID : string)
  : result string :=
  match members with
  | [] => Ok UUID
  | (key, v) :: rest =>
      if eqFold "UUID" key then
        match v with
        | VString s => decodeUUID rest s
        | VNil => decodeUUID rest UUID
        | _ => Err (LibError "json: cannot unmarshal value into Go value of type string")
        end
      else decodeUUID rest UUID
  end.

(** No member of the object is decoded into the field. *)
Definition lacks_uuid (members : list (string * value)) : bool :=
  forallb (fun member => negb (eqFold "UUID" (fst member))) members.

Section Identity.

(** The JSON parser of [encoding/json]: the document a text denotes, or a
    syntax error. *)
Variable json_parse : string -> result value.

Definition json_Unmarshal (jsonData : string) : result string :=
  match json_parse jsonData with
  | Err e => Err e
  | Ok (VMap members) => decodeUUID members ""
  | Ok VNil => Ok ""
  | Ok _ => Err (LibError "json: cannot unmarshal value into Go value of type struct")
  end.

Definition parseMetadataUUID (jsonData : string) : string * option error :=
  match json_Unmarshal jsonData with
  | Err err => ("", Some err)
  | Ok uuid =>
      if String.eqb uuid ""
      then ("", Some (Errorf "cannot parse OpenStack metadata, got empty uuid"))
      else (uuid, None)
  end.

(** [readInstanceID], together with the URLs it requested over HTTP. *)
Definition readInstanceID (h : Host) : (string * option error) * list string :=
  let instanceIDFile := "/var/lib/cloud/data/instance-id" in
  let fromFile :=
    match ioutil_ReadFile h instanceIDFile with
    | Ok idBytes =>
        let instanceID := TrimSpace idBytes in
        if negb (String.eqb instanceID "") then Some instanceID else None
    | Err _ => None
    end in
  match fromFile with
  | Some instanceID => ((instanceID, None), [])
  | None =>
      match http_Get h metadataUrl with
      | Err err => (("", Some err), [metadataUrl])
      | Ok resp =>
          if negb (Response.StatusCode resp =? 200)%Z then
            (("", Some (Errorf
                 ("got unexpected status code when reading metadata from "
                  ++ metadataUrl ++ ": " ++ Response.Status resp)%string)),
             [metadataUrl])
          else
            match Response.Body resp with
            | Err err => (("", Some err), [metadataUrl])
            | Ok bodyBytes =>
                let '(instanceID, err) := parseMetadataUUID bodyBytes in
                match err with
                | Some err => (("", Some err), [metadataUrl])
                | None => ((instanceID, None), [metadataUrl])
                end
            end
      end
  end.

End Identity.

(** ** The provider and the Instances interface *)

(** [time.Duration] counts nanoseconds in an int64. *)
Record MyDuration : Type := { Duration : Z }.

Record RouteOpts : Type := {
  RouterId : string;
  HostnameOverride : bool
}.

Record LoadBalancerOpts : Type := {
  SubnetId : string;
  FloatingNetworkId : string;
  LBMethod : string;
  CreateMonitor : bool;
  MonitorDelay : MyDuration;
  MonitorTimeout : MyDuration;
  MonitorMaxRetries : N
}.

(** ** Configuration *)

Module Global.
Record t : Type := {
  AuthUrl : string;
  Username : string;
  UserId : string;
  Password : string;
  ApiKey : string;
  TenantId : string;
  TenantName : string;
  DomainId : string;
  DomainName : string;
  Region : string
}.
End Global.

Record Config : Type := {
  Global : Global.t;
  LoadBalancer : LoadBalancerOpts;
  Route : RouteOpts
}.

Module AuthOptions.
Record t : Type := {
  IdentityEndpoint : string;
  Username : string;
  UserID : string;
  Password : string;
  APIKey : string;
  TenantID : string;
  TenantName : string;
  AllowReauth : bool
}.
End AuthOptions.

Module EndpointOpts.
Record t : Type := { Region : string }.
End EndpointOpts.

Definition toAuthOptions (cfg : Config) : AuthOptions.t :=
  {| AuthOptions.IdentityEndpoint := Global.AuthUrl (Global cfg);
     AuthOptions.Username := Global.Username (Global cfg);
     AuthOptions.UserID := Global.UserId (Global cfg);
     AuthOptions.Password := Global.Password (Global cfg);
     AuthOptions.APIKey := Global.ApiKey (Global cfg);
     AuthOptions.TenantID := Global.TenantId (Global cfg);
     AuthOptions.TenantName := Global.TenantName (Global cfg);
     AuthOptions.AllowReauth := true |}.

Section Provider.

(** [*gophercloud.ProviderClient], an authenticated session of the SDK. *)
Variable ProviderClient : Type.

Record OpenStack : Type := {
  provider : ProviderClient;
  compute : ServiceClient;
  network : ServiceClient;
  region : string;
  lbOpts : LoadBalancerOpts;
  routeOpts : RouteOpts;
  localInstanceID : string
}.

(** Modelled from the spec: [api.NodeAddress] is declared in package [api],
    outside the sources: a kind and a literal address string. *)
Inductive NodeAddressType : Type :=
| NodeHostName
| NodeExternalIP
| NodeInternalIP.

Record NodeAddress : Type := {
  Type_ : NodeAddressType;
  Address : string
}.

Definition NodeAddressType_eqb (a b : NodeAddressType) : bool :=
  match a, b with
  | NodeHostName, NodeHostName
  | NodeExternalIP, NodeExternalIP
  | NodeInternalIP, NodeInternalIP => true
  | _, _ => false
  end.

Definition NodeAddress_eqb (a b : NodeAddress) : bool :=
  String.eqb (Address a) (Address b) && NodeAddressType_eqb (Type_ a) (Type_ b).

(** Modelled from the spec: [api.AddToNodeAddresses] is defined in package
    [api], outside the sources.  It appends each given address to the slice
    unless an entry with the same kind and address is already there
    ("duplicates by (kind,address) are suppressed"). *)
Definition AddToNodeAddresses (addresses addAddresses : list NodeAddress)
  : list NodeAddress :=
  fold_left
    (fun addresses add =>
       if existsb (fun existing => NodeAddress_eqb existing add) addresses
       then addresses
       else addresses ++ [add])
    addAddresses addresses.

Definition NodeAddresses (os : OpenStack) (name : string)
  : outcome (list NodeAddress * option error) :=
  '(srv, err) <- getServerByName (compute os) name ;;
  match err with
  | Some e => Done ([], Some e)
  | None =>
      srv <- deref srv ;;
      let addrs := [] in
      fixed <- findAddrs (Addresses srv) "fixed" ;;
      let addrs :=
        fold_left
          (fun addrs addr =>
             addrs ++ [{| Type_ := NodeInternalIP; Address := addr |}])
          fixed addrs in
      floating <- findAddrs (Addresses srv) "floating" ;;
      let addrs :=
        fold_left
          (fun addrs addr =>
             addrs ++ [{| Type_ := NodeExternalIP; Address := addr |}])
          floating addrs in
      let addrs :=
        AddToNodeAddresses addrs
          [ {| Type_ := NodeExternalIP; Address := AccessIPv6 srv |};
            {| Type_ := NodeExternalIP; Address := AccessIPv4 srv |} ] in
      Done (addrs, None)
  end.

Definition ExternalID (os : OpenStack) (name : string)
  : outcome (string * option error) :=
  '(srv, err) <- getServerByName (compute os) name ;;
  match err with
  | Some e => Done ("", Some e)
  | None => srv <- deref srv ;; Done (ID srv, None)
  end.

Definition InstanceID (os : OpenStack) (name : string)
  : outcome (string * option error) :=
  '(srv, err) <- getServerByName (compute os) name ;;
  match err with
  | Some e => Done ("", Some e)
  | None => srv <- deref srv ;; Done (("/" ++ ID srv)%string, None)
  end.

(** ** Construction *)

Section Construction.

(** The SDK calls that [newOpenStack] makes, and the machine it runs on. *)
Variable openstack_AuthenticatedClient : AuthOptions.t -> result ProviderClient.
Variable openstack_NewNetworkV2 :
  ProviderClient -> EndpointOpts.t -> result ServiceClient.
Variable openstack_NewComputeV2 :
  ProviderClient -> EndpointOpts.t -> result ServiceClient.
Variable json_parse : string -> result value.
Variable host : Host.

Definition newOpenStack (cfg : Config) : option OpenStack * option error :=
  match openstack_AuthenticatedClient (toAuthOptions cfg) with
  | Err err => (None, Some err)
  | Ok provider =>
      let '(id, _) := fst (readInstanceID json_parse host) in
      match openstack_NewNetworkV2 provider
              {| EndpointOpts.Region := Global.Region (Global cfg) |} with
      | Err err => (None, Some err)
      | Ok network =>
          match openstack_NewComputeV2 provider
                  {| EndpointOpts.Region := Global.Region (Global cfg) |} with
          | Err err => (None, Some err)
          | Ok compute =>
              let os := {| compute := compute;
                           network := network;
                           provider := provider;
                           region := Global.Region (Global cfg);
                           lbOpts := LoadBalancer cfg;
                           routeOpts := Route cfg;
                           localInstanceID := id |} in
              (Some os, None)
          end
      end
  end.

End Construction.

End Provider.

(** ** The compute API behind the client

    Modelled from the spec: the list API of the compute service is not part
    of the sources.  It filters the servers by status and by name; the name
    filter is a regular expression that may match anywhere in a name unless
    it is anchored ("substring-capable filter API").  The model reads the
    patterns made of literal bytes, escaped metacharacters, [.], a leading
    [^] and a trailing [$]; any other pattern is outside the model. *)

Inductive token : Type :=
| Bol               (* ^ *)
| Eol               (* $ *)
| AnyChar           (* . *)
| Lit (c : ascii).  (* a byte, plain or escaped *)

Definition consTok (t : token) (r : option (list token)) : option (list token) :=
  match r with
  | Some ts => Some (t :: ts)
  | None => None
  end.

Fixpoint tokens (first : bool) (p : string) : option (list token) :=
  match p with
  | EmptyString => Some []
  | String c p' =>
      if Ascii.eqb c "^" then
        if first then consTok Bol (tokens false p') else None
      else if Ascii.eqb c "$" then
        match p' with
        | EmptyString => Some [Eol]
        | _ => None
        end
      else if Ascii.eqb c "\" then
        match p' with
        | String d p'' =>
            if special d then consTok (Lit d) (tokens false p'') else None
        | EmptyString => None
        end
      else if Ascii.eqb c "." then consTok AnyChar (tokens false p')
      else if special c then None
      else consTok (Lit c) (tokens false p')
  end.

(** Does [ts] match a prefix of [s] (all of [s] when [ts] ends in [Eol])? *)
Fixpoint matchHere (ts : list token) (s : string) : bool :=
  match ts with
  | [] => true
  | Bol :: _ => false
  | Eol :: ts' =>
      match s with
      | EmptyString => matchHere ts' s
      | _ => false
      end
  | AnyChar :: ts' =>
      match s with
      | String d s' => negb (Ascii.eqb d "010") && matchHere ts' s'
      | EmptyString => false
      end
  | Lit c :: ts' =>
      match s with
      | String d s' => Ascii.eqb c d && matchHere ts' s'
      | EmptyString => false
      end
  end.

Fixpoint matchAnywhere (ts : list token) (s : string) : bool :=
  matchHere ts s ||
  match s with
  | String _ s' => matchAnywhere ts s'
  | EmptyString => false
  end.

(** [None]: the pattern is outside the model. *)
Definition regexMatch (pattern s : string) : option bool :=
  match tokens true pattern with
  | None => None
  | Some (Bol :: ts) => Some (matchHere ts s)
  | Some ts => Some (matchAnywhere ts s)
  end.

(** Pages of at most [S limit] servers each. *)
Fixpoint paginate (fuel limit : nat) (l : list Server) : list (list Server) :=
  match fuel, l with
  | _, [] => []
  | O, _ => [l]
  | S fuel', _ => firstn (S limit) l :: paginate fuel' limit (skipn (S limit) l)
  end.

Definition selected (opts : ListOpts.t) (s : Server) : bool :=
  String.eqb (Status s) (ListOpts.Status opts) &&
  match regexMatch (ListOpts.Name opts) (Name s) with
  | Some b => b
  | None => false
  end.

(** A compute endpoint that holds [inventory] and answers every request. *)
Definition computeAPI (inventory : list Server) (limit : nat) : ServiceClient :=
  fun opts =>
    match tokens true (ListOpts.Name opts) with
    | None => [FetchFailed (LibError "400 Bad Request")]
    | Some _ =>
        let hits := filter (selected opts) inventory in
        goodPages (paginate (List.length hits) limit hits)
    end.

(** ** The address extractor as the specification words it

    The first descriptor of a network's list, when it is well formed: its
    address string and its type tag. *)
Definition firstDescriptor (listblob : value) : option (string * string) :=
  match listblob with
  | VSlice (VMap props :: _) =>
      match lookup props "addr", lookup props "OS-EXT-IPS:type" with
      | Some (VString addr), Some (VString ipt) => Some (addr, ipt)
      | _, _ => None
      end
  | _ => None
  end.

(** What one network contributes: the address of its first descriptor when
    the type tag of that descriptor is [iptype]. *)
Definition pick (iptype : string) (entry : string * value) : list string :=
  match firstDescriptor (snd entry) with
  | Some (addr, ipt) => if String.eqb ipt iptype then [addr] else []
  | None => []
  end.

(** The addresses, across all networks, of the first descriptors whose type
    tag is [iptype]. *)
Definition extracted (iptype : string) (networks : list (string * value))
  : list string :=
  flat_map (pick iptype) networks.

(** The ways in which a network's entry can be malformed. *)
Inductive malformed : value -> Prop :=
| not_a_list v : (forall l, v <> VSlice l) -> malformed v
| empty_list : malformed (VSlice [])
| descriptor_not_a_map d l : (forall props, d <> VMap props) ->
    malformed (VSlice (d :: l))
| addr_missing props l : lookup props "addr" = None ->
    malformed (VSlice (VMap props :: l))
| addr_not_a_string props l v : lookup props "addr" = Some v ->
    (forall s, v <> VString s) -> malformed (VSlice (VMap props :: l))
| type_missing props l : lookup props "OS-EXT-IPS:type" = None ->
    malformed (VSlice (VMap props :: l))
| type_not_a_string props l v : lookup props "OS-EXT-IPS:type" = Some v ->
    (forall s, v <> VString s) -> malformed (VSlice (VMap props :: l)).

(** The first non-empty string of a list of candidates. *)
Definition firstNonEmpty (candidates : list string) : option string :=
  find (fun s => negb (String.eqb s "")) candidates.

(** ** findInstances and List *)

Definition findInstances_handler (page : Page) (ret : list string)
  : outcome (bool * option error * list string) :=
  let '(sList, err) := ExtractServers page in
  match err with
  | Some e => Done (false, Some e, ret)
  | None =>
      let ret := fold_left (fun ret server => ret ++ [Name server]) sList ret in
      Done (true, None, ret)
  end.

(** [findInstances] together with the requests its pager never made. *)
Definition findInstances_run (compute : ServiceClient) (name_filter : string)
  : outcome ((list string * option error) * Pager) :=
  let opts := {| ListOpts.Name := name_filter; ListOpts.Status := "ACTIVE" |} in
  let pager := servers_List compute opts in
  let ret := [] in
  '(err, ret, unfetched) <- EachPage findInstances_handler pager ret ;;
  match err with
  | Some e => Done (([], Some e), unfetched)
  | None => Done ((ret, None), unfetched)
  end.

Definition findInstances (compute : ServiceClient) (name_filter : string)
  : outcome (list string * option error) :=
  r <- findInstances_run compute name_filter ;; Done (fst r).

Definition List {P : Type} (os : OpenStack P) (name_filter : string)
  : outcome (list string * option error) :=
  '(ret, err) <- findInstances (compute os) name_filter ;;
  match err with
  | Some e => Done ([], Some e)
  | None => Done (ret, None)
  end.

(** ** Zones *)

Module Zone.
(** Modelled from the spec: [cloudprovider.Zone] is declared in package
    [cloudprovider], outside the sources; the provider fills its region and
    leaves the failure domain at its zero value. *)
Record t : Type := { FailureDomain : string; Region : string }.
End Zone.

Definition GetZone {P : Type} (os : OpenStack P) : Zone.t * option error :=
  ({| Zone.FailureDomain := ""; Zone.Region := region os |}, None).

(** ** readConfig and the registered constructor *)

(** The zero value of [Config]. *)
Definition zeroConfig : Config :=
  {| Global := {| Global.AuthUrl := ""; Global.Username := "";
                  Global.UserId := ""; Global.Password := "";
                  Global.ApiKey := ""; Global.TenantId := "";
                  Global.TenantName := ""; Global.DomainId := "";
                  Global.DomainName := ""; Global.Region := "" |};
     LoadBalancer := {| SubnetId := ""; FloatingNetworkId := "";
                        LBMethod := ""; CreateMonitor := false;
                        MonitorDelay := {| Duration := 0 |};
                        MonitorTimeout := {| Duration := 0 |};
                        MonitorMaxRetries := 0 |};
     Route := {| RouterId := ""; HostnameOverride := false |} |}.

Section Registration.

Variable ProviderClient : Type.

(** [gcfg.ReadInto(&cfg, config)]: the configuration after reading the
    text into it, and the error of the reader or of the parser. *)
Variable gcfg_ReadInto : Config -> string -> Config * option error.
Variable openstack_AuthenticatedClient : AuthOptions.t -> result ProviderClient.
Variable openstack_NewNetworkV2 :
  ProviderClient -> EndpointOpts.t -> result ServiceClient.
Variable openstack_NewComputeV2 :
  ProviderClient -> EndpointOpts.t -> result ServiceClient.
Variable json_parse : string -> result value.
Variable host : Host.

(** An [io.Reader] is the text it delivers; [None] is the nil reader. *)
Definition readConfig (config : option string) : Config * option error :=
  match config with
  | None =>
      (zeroConfig, Some (Errorf "no OpenStack cloud provider config file given"))
  | Some text => gcfg_ReadInto zeroConfig text
  end.

(** The constructor that [init] registers under [ProviderName]. *)
Definition registered (config : option string)
  : option (OpenStack ProviderClient) * option error :=
  let '(cfg, err) := readConfig config in
  match err with
  | Some e => (None, Some e)
  | None =>
      newOpenStack openstack_AuthenticatedClient openstack_NewNetworkV2
                   openstack_NewComputeV2 json_parse host cfg
  end.

End Registration.

(** ** Words for the properties of the address lookup *)

(** The first extracted "fixed" address of a server, when there is one. *)
Definition firstFixed (s : Server) : option string :=
  match findAddrs (Addresses s) "fixed" with
  | Done (addr :: _) => Some addr
  | _ => None
  end.

Definition hasAddress (ip : string) (s : Server) : bool :=
  match firstFixed s with
  | Some addr => String.eqb addr ip
  | None => false
  end.

(** A request that fails, or a page that cannot be extracted. *)
Definition fails_with (e : error) (f : fetch) : Prop :=
  f = FetchFailed e \/ f = Fetched (BrokenPage e).

(** ** Sample data *)

Definition blob (networks : list (string * (string * string))) : value :=
  VMap (map (fun '(net, (addr, ipt)) =>
               (net, VSlice [VMap [("addr", VString addr);
                                   ("OS-EXT-IPS:type", VString ipt)]]))
            networks).

Definition net_fixed : string * value :=
  ("net1", VSlice [VMap [("addr", VString "10.0.0.1");
                         ("OS-EXT-IPS:type", VString "fixed")];
                   VMap [("addr", VString "10.0.0.9");
                         ("OS-EXT-IPS:type", VString "fixed")]]).

Definition net_floating : string * value :=
  ("net2", VSlice [VMap [("addr", VString "1.2.3.4");
                         ("OS-EXT-IPS:type", VString "floating")]]).

Definition server_a : Server :=
  {| ID := "4f1c"; Name := "node-1"; Status := "ACTIVE";
     Addresses := blob [("net1", ("10.0.0.1", "fixed"));
                        ("net2", ("1.2.3.4", "floating"))];
     AccessIPv4 := ""; AccessIPv6 := "" |}.

Definition server_b : Server :=
  {| ID := "77aa"; Name := "node-1"; Status := "ACTIVE";
     Addresses := VMap [];
     AccessIPv4 := "5.6.7.8"; AccessIPv6 := "" |}.

Definition server_c : Server :=
  {| ID := "90de"; Name := "node-1"; Status := "ACTIVE";
     Addresses := VNil;
     AccessIPv4 := ""; AccessIPv6 := "" |}.

Definition server_dup : Server :=
  {| ID := "13bd"; Name := "node-2"; Status := "ACTIVE";
     Addresses := blob [("net1", ("10.0.0.1", "fixed"));
                        ("net2", ("10.0.0.1", "fixed"))];
     AccessIPv4 := ""; AccessIPv6 := "" |}.

Definition sample_os (client : ServiceClient) : OpenStack unit :=
  {| provider := tt;
     compute := client;
     network := client;
     region := "RegionOne";
     lbOpts := {| SubnetId := ""; FloatingNetworkId := ""; LBMethod := "";
                  CreateMonitor := false;
                  MonitorDelay := {| Duration := 0 |};
                  MonitorTimeout := {| Duration := 0 |};
                  MonitorMaxRetries := 0 |};
     routeOpts := {| RouterId := ""; HostnameOverride := false |};
     localInstanceID := "" |}.

Definition server_axb : Server :=
  {| ID := "a0b1"; Name := "axb"; Status := "ACTIVE";
     Addresses := VMap [];
     AccessIPv4 := ""; AccessIPv6 := "" |}.

(** A machine without the marker file, whose metadata server answers
    [status] with [body]. *)
Definition host_without_file (status : Z) (body : string) : Host :=
  {| ioutil_ReadFile := fun _ => Err (LibError "no such file or directory");
     http_Get := fun _ =>
       Ok {| Response.StatusCode := status;
             Response.Status := "";
             Response.Body := Ok body |} |}.

(** A machine whose marker file holds [content] and which has no network. *)
Definition host_with_file (content : string) : Host :=
  {| ioutil_ReadFile := fun _ => Ok content;
     http_Get := fun _ => Err (LibError "network is unreachable") |}.

Definition dquote : string := String (ascii_of_nat 34) EmptyString.

(** The text [{"uuid":"xyz"}]. *)
Definition sample_metadata : string :=
  ("{" ++ dquote ++ "uuid" ++ dquote ++ ":" ++ dquote ++ "xyz" ++ dquote
   ++ "}")%string.

(** A parser that knows this one text. *)
Definition parse_sample (text : string) : result value :=
  if String.eqb text sample_metadata
  then Ok (VMap [("uuid", VString "xyz")])
  else Err (LibError "invalid character").

Definition sample_cfg : Config :=
  {| Global := {| Global.AuthUrl := "http://keystone:5000/v2.0";
                  Global.Username := "kube"; Global.UserId := "";
                  Global.Password := "secret"; Global.ApiKey := "";
                  Global.TenantId := ""; Global.TenantName := "k8s";
                  Global.DomainId := ""; Global.DomainName := "";
                  Global.Region := "RegionOne" |};
     LoadBalancer := lbOpts (sample_os (fun _ => []));
     Route := routeOpts (sample_os (fun _ => [])) |}.

(** * Properties *)

(** ** The outcome monad *)

Lemma bind_Done {A B : Type} (a : A) (k : A -> outcome B) :
  bind (Done a) k = k a.
Proof. reflexivity. Qed.

Lemma index_head {A : Type} (a : A) (l : list A) : index (a :: l) 0 = Done a.
Proof. reflexivity. Qed.

(** ** findAddrs *)

(** A turn of the loop appends what the specification picks from the entry,
    and never panics. *)
Lemma findAddrs_body_pick iptype ret entry :
  findAddrs_body iptype ret entry = Done (ret ++ pick iptype entry).
Proof.
  destruct entry as [net listblob].
  unfold findAddrs_body, pick, firstDescriptor; simpl.
  destruct listblob as [| | | |l| |]; try (now rewrite app_nil_r).
  destruct l as [|d l]; simpl; [now rewrite app_nil_r|].
  destruct d as [| | | | |props|]; try (now rewrite app_nil_r).
  destruct (lookup props "addr") as [[| | |addr| | |]|];
    try (now rewrite app_nil_r).
  destruct (lookup props "OS-EXT-IPS:type") as [[| | |ipt| | |]|];
    try (now rewrite app_nil_r).
  destruct (String.eqb ipt iptype); [reflexivity | now rewrite app_nil_r].
Qed.

Lemma forRange_findAddrs iptype networks ret :
  forRange (findAddrs_body iptype) networks ret
  = Done (ret ++ extracted iptype networks).
Proof.
  revert ret.
  induction networks as [|entry networks IH]; intros ret; simpl.
  - now rewrite app_nil_r.
  - rewrite findAddrs_body_pick, bind_Done, IH, <- app_assoc. reflexivity.
Qed.

Lemma findAddrs_extracted networks iptype :
  findAddrs (VMap networks) iptype = Done (extracted iptype networks).
Proof. unfold findAddrs. now rewrite forRange_findAddrs. Qed.

Lemma findAddrs_Done netblob iptype :
  exists ret, findAddrs netblob iptype = Done ret.
Proof.
  destruct netblob; try (exists []; reflexivity).
  eexists. apply findAddrs_extracted.
Qed.

Lemma extracted_app iptype m1 m2 :
  extracted iptype (m1 ++ m2) = extracted iptype m1 ++ extracted iptype m2.
Proof. unfold extracted. apply flat_map_app. Qed.

Lemma extracted_cons iptype entry m :
  extracted iptype (entry :: m) = pick iptype entry ++ extracted iptype m.
Proof. reflexivity. Qed.

(** X8: whatever order the run ranges over the map in, the same addresses
    come out, as often; only their order follows the order of the range. *)
Lemma findAddrs_range_order m1 m2 iptype :
  Permutation m1 m2 ->
  exists r1 r2,
    findAddrs (VMap m1) iptype = Done r1 /\
    findAddrs (VMap m2) iptype = Done r2 /\
    Permutation r1 r2.
Proof.
  intros HP. exists (extracted iptype m1), (extracted iptype m2).
  rewrite !findAddrs_extracted. repeat split.
  unfold extracted.
  induction HP; simpl.
  - constructor.
  - now apply Permutation_app_head.
  - rewrite !app_assoc. apply Permutation_app_tail, Permutation_app_comm.
  - eapply Permutation_trans; eassumption.
Qed.

Lemma malformed_firstDescriptor v : malformed v -> firstDescriptor v = None.
Proof.
  intros H; destruct H as [v H| |d l H|props l H|props l v H Hs|props l H
                          |props l v H Hs]; simpl.
  - destruct v; try reflexivity. now destruct (H l).
  - reflexivity.
  - destruct d; try reflexivity. now destruct (H m).
  - now rewrite H.
  - rewrite H. destruct v; try reflexivity. now destruct (Hs s).
  - rewrite H. now destruct (lookup props "addr") as [[| | | | | |]|].
  - rewrite H. destruct (lookup props "addr") as [[| | | | | |]|];
      try reflexivity.
    destruct v; try reflexivity. now destruct (Hs s0).
Qed.

(** C6: [findAddrs] returns exactly the addresses of the first descriptors
    whose type tag is the requested one, network by network in the order of
    the range; the descriptors after the first of a network are never
    looked at; and a network whose entry is malformed (not a list, an empty
    list, a descriptor that is not a map, "addr" or "OS-EXT-IPS:type"
    missing or not a string) contributes nothing and does not disturb the
    extraction from the other networks. *)
Theorem findAddrs_first_descriptors :
  (forall networks iptype,
      findAddrs (VMap networks) iptype = Done (extracted iptype networks)) /\
  (forall before after net d more iptype,
      findAddrs (VMap (before ++ (net, VSlice (d :: more)) :: after)) iptype
      = findAddrs (VMap (before ++ (net, VSlice [d]) :: after)) iptype) /\
  (forall before after net listblob iptype,
      malformed listblob ->
      findAddrs (VMap (before ++ (net, listblob) :: after)) iptype
      = findAddrs (VMap (before ++ after)) iptype) /\
  (forall networks iptype addr,
      In addr (extracted iptype networks) <->
      exists net listblob,
        In (net, listblob) networks /\
        firstDescriptor listblob = Some (addr, iptype)).
Proof.
  split; [exact findAddrs_extracted|].
  split; [|split].
  - intros. rewrite !findAddrs_extracted, !extracted_app.
    f_equal.
  - intros before after net listblob iptype Hm.
    rewrite !findAddrs_extracted, !extracted_app, extracted_cons.
    unfold pick; cbn [snd].
    now rewrite (malformed_firstDescriptor Hm).
  - intros networks iptype addr. unfold extracted. rewrite in_flat_map.
    split.
    + intros [[net listblob] [Hin Hp]]. exists net, listblob. split; [easy|].
      unfold pick in Hp; simpl in Hp.
      destruct (firstDescriptor listblob) as [[a t]|]; [|easy].
      destruct (String.eqb t iptype) eqn:E; [|easy].
      apply String.eqb_eq in E. destruct Hp as [->|[]]. now subst.
    + intros (net & listblob & Hin & Hf). exists (net, listblob).
      split; [easy|]. unfold pick; simpl. rewrite Hf, String.eqb_refl.
      now left.
Qed.

Lemma findAddrs_first_descriptors_witness :
  findAddrs (VMap [net_fixed; net_floating]) "fixed" = Done ["10.0.0.1"] /\
  findAddrs (VMap [net_fixed; ("bad", VSlice [VString "x"]); net_floating])
            "floating"
  = findAddrs (VMap [net_fixed; net_floating]) "floating" /\
  In "1.2.3.4" (extracted "floating" [net_fixed; net_floating]).
Proof.
  destruct findAddrs_first_descriptors as (H1 & H2 & H3 & H4).
  split; [|split].
  - rewrite H1. reflexivity.
  - apply (H3 [net_fixed] [net_floating] "bad" (VSlice [VString "x"])).
    apply descriptor_not_a_map. intros props; discriminate.
  - apply H4. exists "net2", (snd net_floating). split.
    + right; left; reflexivity.
    + reflexivity.
Defined.

(** C10: [findAddrs] returns normally on every blob and every type tag, and
    on a blob that is not a map of networks (nil, a string, a list, ...) it
    returns the empty list. *)
Theorem findAddrs_total :
  (forall netblob iptype, exists ret, findAddrs netblob iptype = Done ret) /\
  (forall netblob iptype,
      (forall networks, netblob <> VMap networks) ->
      findAddrs netblob iptype = Done []).
Proof.
  split.
  - exact findAddrs_Done.
  - intros netblob iptype H. destruct netblob; try reflexivity.
    now destruct (H m).
Qed.

Lemma findAddrs_total_witness :
  findAddrs VNil "fixed" = Done [] /\
  findAddrs (VString "10.0.0.1") "fixed" = Done [] /\
  findAddrs (VSlice [VMap []]) "floating" = Done [] /\
  exists ret, findAddrs (VMap [("n", VOther "chan int")]) "fixed" = Done ret.
Proof.
  destruct findAddrs_total as [H1 H2].
  repeat split; try (apply H2; intros networks; discriminate).
  apply H1.
Defined.

(** ** getServerByName *)

Lemma handler_few l acc :
  List.length (acc ++ l) <= 1 ->
  getServerByName_handler (ServerPage l) acc = Done (true, None, acc ++ l).
Proof.
  intros H. unfold getServerByName_handler; simpl.
  destruct (Nat.ltb_spec 1 (List.length (acc ++ l))); [lia | reflexivity].
Qed.

Lemma handler_many l acc :
  2 <= List.length (acc ++ l) ->
  getServerByName_handler (ServerPage l) acc
  = Done (false, Some ErrMultipleResults, acc ++ l).
Proof.
  intros H. unfold getServerByName_handler; simpl.
  destruct (Nat.ltb_spec 1 (List.length (acc ++ l))); [reflexivity | lia].
Qed.

Lemma length_app_le {A : Type} (l1 l2 : list A) :
  List.length l1 <= List.length (l1 ++ l2).
Proof. rewrite length_app. lia. Qed.

(** While at most one server has been seen, every page is requested. *)
Lemma scan_few pages : forall acc,
  List.length (acc ++ List.concat pages) <= 1 ->
  EachPage getServerByName_handler (goodPages pages) acc
  = Done (None, acc ++ List.concat pages, []).
Proof.
  induction pages as [|p pages IH]; intros acc H; simpl in *.
  - now rewrite app_nil_r.
  - rewrite app_assoc in H.
    rewrite handler_few by (etransitivity; [apply length_app_le | exact H]).
    rewrite bind_Done. fold (goodPages pages).
    rewrite IH by exact H. now rewrite app_assoc.
Qed.

(** The page that brings the second server ends the iteration. *)
Lemma scan_second pre : forall p rest acc,
  List.length (acc ++ List.concat pre) <= 1 ->
  2 <= List.length ((acc ++ List.concat pre) ++ p) ->
  EachPage getServerByName_handler
           (goodPages pre ++ Fetched (ServerPage p) :: rest) acc
  = Done (Some ErrMultipleResults, (acc ++ List.concat pre) ++ p, rest).
Proof.
  induction pre as [|q pre IH]; intros p rest acc H1 H2; simpl in *.
  - rewrite app_nil_r in *. now rewrite handler_many.
  - rewrite app_assoc in H1, H2.
    rewrite handler_few by (etransitivity; [apply length_app_le | exact H1]).
    rewrite bind_Done. fold (goodPages pre).
    rewrite IH by assumption. now rewrite !app_assoc.
Qed.

(** The iteration never panics; when it ends without an error, every request
    was made, every page was good, and at most one server was seen. *)
Lemma scan_inv pager : forall acc,
  List.length acc <= 1 ->
  exists err st unfetched,
    EachPage getServerByName_handler pager acc = Done (err, st, unfetched) /\
    (err = None ->
     List.length st <= 1 /\ unfetched = [] /\
     exists pages, pager = goodPages pages /\ st = acc ++ List.concat pages).
Proof.
  induction pager as [|f pager IH]; intros acc Hacc; simpl.
  - exists None, acc, []. split; [reflexivity|]. intros _.
    repeat split; [assumption|]. exists []. now rewrite app_nil_r.
  - destruct f as [[l|e]|e].
    + destruct (Nat.le_gt_cases (List.length (acc ++ l)) 1) as [Hle|Hgt].
      * rewrite handler_few, bind_Done by assumption.
        destruct (IH (acc ++ l) Hle) as (err & st & unf & Heq & Hnone).
        exists err, st, unf. split; [assumption|].
        intros Herr. destruct (Hnone Herr) as (Hst & Hunf & pages & -> & ->).
        repeat split; [assumption | assumption |].
        exists (l :: pages). simpl. now rewrite app_assoc.
      * rewrite handler_many by lia.
        eexists _, _, _. split; [reflexivity | discriminate].
    + eexists _, _, _. split; [reflexivity | discriminate].
    + eexists _, _, _. split; [reflexivity | discriminate].
Qed.

Lemma run_unfold client name :
  getServerByName client name
  = r <- getServerByName_run client name ;; Done (fst r).
Proof. reflexivity. Qed.

(** The lookup never panics and returns a server or an error, not both. *)
Lemma getServerByName_run_cases client name :
  exists unfetched,
    (exists s, getServerByName_run client name = Done (Some s, None, unfetched)
               /\ unfetched = []
               /\ exists pages, client (byNameOpts name) = goodPages pages
                                /\ List.concat pages = [s])
    \/ (exists e, getServerByName_run client name
                  = Done (None, Some e, unfetched)).
Proof.
  unfold getServerByName_run, servers_List.
  destruct (@scan_inv (client (byNameOpts name)) [])
    as (err & st & unf & Heq & Hnone); [simpl; lia|].
  rewrite Heq, bind_Done. exists unf.
  destruct err as [e|].
  - right. now exists e.
  - destruct (Hnone eq_refl) as (Hst & Hunf & pages & Hp & Hc). simpl in Hc.
    destruct st as [|s [|s' st]]; simpl in *; try lia.
    + right. now exists ErrNotFound.
    + left. exists s. repeat split; try assumption. now exists pages.
Qed.

Lemma getServerByName_cases client name :
  (exists s, getServerByName client name = Done (Some s, None)) \/
  (exists e, getServerByName client name = Done (None, Some e)).
Proof.
  rewrite run_unfold.
  destruct (getServerByName_run_cases client name)
    as (unf & [(s & -> & _)|(e & ->)]); [left; now exists s | right; now exists e].
Qed.

Lemma goodPages_app p q : goodPages (p ++ q) = goodPages p ++ goodPages q.
Proof. apply map_app. Qed.

(** Among pages that hold two servers or more, one page brings the second. *)
Lemma second_page (pages : list (list Server)) : forall seen,
  seen <= 1 ->
  2 <= seen + List.length (List.concat pages) ->
  exists pre p rest,
    pages = pre ++ p :: rest /\
    seen + List.length (List.concat pre) <= 1 /\
    2 <= seen + List.length (List.concat pre ++ p).
Proof.
  induction pages as [|q pages IH]; intros seen Hseen Htwo; simpl in Htwo.
  - lia.
  - rewrite length_app in Htwo.
    destruct (Nat.le_gt_cases (seen + List.length q) 1) as [Hle|Hgt].
    + destruct (IH (seen + List.length q) Hle) as (pre & p & rest & -> & H1 & H2);
        [lia|].
      exists (q :: pre), p, rest. simpl.
      rewrite <- app_assoc, !length_app in *. repeat split; lia.
    + exists [], q, pages. simpl. repeat split; lia.
Qed.

Lemma run_none client name pages :
  client (byNameOpts name) = goodPages pages -> List.concat pages = [] ->
  getServerByName_run client name = Done (None, Some ErrNotFound, []).
Proof.
  intros Hp Hc. unfold getServerByName_run, servers_List.
  rewrite Hp, scan_few by (simpl; rewrite Hc; simpl; lia).
  simpl. now rewrite Hc.
Qed.

Lemma run_one client name pages s :
  client (byNameOpts name) = goodPages pages -> List.concat pages = [s] ->
  getServerByName_run client name = Done (Some s, None, []).
Proof.
  intros Hp Hc. unfold getServerByName_run, servers_List.
  rewrite Hp, scan_few by (simpl; rewrite Hc; simpl; lia).
  simpl. now rewrite Hc.
Qed.

Lemma run_second client name pre p rest :
  client (byNameOpts name) = goodPages pre ++ Fetched (ServerPage p) :: rest ->
  List.length (List.concat pre) <= 1 ->
  2 <= List.length (List.concat pre ++ p) ->
  getServerByName_run client name = Done (None, Some ErrMultipleResults, rest).
Proof.
  intros Hp H1 H2. unfold getServerByName_run, servers_List.
  rewrite Hp, scan_second by (simpl; assumption). reflexivity.
Qed.

Lemma run_many client name pages :
  client (byNameOpts name) = goodPages pages ->
  2 <= List.length (List.concat pages) ->
  getServerByName client name = Done (None, Some ErrMultipleResults).
Proof.
  intros Hp Htwo.
  destruct (@second_page pages 0) as (pre & p & rest & -> & H1 & H2);
    [lia | simpl; lia |].
  rewrite goodPages_app in Hp. simpl in Hp, H1, H2.
  rewrite run_unfold, (run_second _ _ _ _ _ Hp H1 H2). reflexivity.
Qed.

(** C1: the exact-match lookup resolves to exactly one server or fails.
    With [pager] the listing of the ACTIVE servers matching the name: it
    fails with NotFound when all pages arrive and hold no server; it fails
    with MultipleResults at the page that brings the second server, leaving
    the later pages unrequested, whatever they hold, and so it does
    whenever the pages hold two servers or more; it returns the server when
    all pages arrive and hold exactly that one; and whenever it returns a
    server, all pages were requested and that server is the only one on
    them. *)
Theorem getServerByName_exactly_one client name :
  let pager := client (byNameOpts name) in
  (forall pages,
      pager = goodPages pages -> List.concat pages = [] ->
      getServerByName_run client name = Done (None, Some ErrNotFound, [])) /\
  (forall pre p rest,
      pager = goodPages pre ++ Fetched (ServerPage p) :: rest ->
      List.length (List.concat pre) <= 1 ->
      2 <= List.length (List.concat pre ++ p) ->
      getServerByName_run client name
      = Done (None, Some ErrMultipleResults, rest)) /\
  (forall pages,
      pager = goodPages pages -> 2 <= List.length (List.concat pages) ->
      getServerByName client name = Done (None, Some ErrMultipleResults)) /\
  (forall pages s,
      pager = goodPages pages -> List.concat pages = [s] ->
      getServerByName_run client name = Done (Some s, None, [])) /\
  (forall s unfetched,
      getServerByName_run client name = Done (Some s, None, unfetched) ->
      unfetched = [] /\
      exists pages, pager = goodPages pages /\ List.concat pages = [s]) /\
  ((exists s, getServerByName client name = Done (Some s, None)) \/
   (exists e, getServerByName client name = Done (None, Some e))).
Proof.
  intros pager. subst pager.
  split; [apply run_none|].
  split; [apply run_second|].
  split; [apply run_many|].
  split; [apply run_one|].
  split; [|apply getServerByName_cases].
  intros s unfetched H.
  destruct (getServerByName_run_cases client name)
    as (unf & [(s' & Heq & Hu & pages & Hp & Hc)|(e & Heq)]);
    rewrite Heq in H; inversion H; subst.
  split; [reflexivity | now exists pages].
Qed.

Lemma getServerByName_exactly_one_witness :
  getServerByName_run (fun _ => goodPages [[]]) "node-1"
  = Done (None, Some ErrNotFound, []) /\
  getServerByName_run
    (fun _ => goodPages [[server_a]] ++
              Fetched (ServerPage [server_b; server_c])
              :: [Fetched (ServerPage [server_a]); FetchFailed ErrNotFound])
    "node-1"
  = Done (None, Some ErrMultipleResults,
          [Fetched (ServerPage [server_a]); FetchFailed ErrNotFound]) /\
  getServerByName_run (fun _ => goodPages [[server_a]]) "node-1"
  = Done (Some server_a, None, []) /\
  (exists pages, goodPages [[server_a]] = goodPages pages /\
                 List.concat pages = [server_a]).
Proof.
  split; [|split; [|split]].
  - destruct (getServerByName_exactly_one
                (fun _ => goodPages [[]]) "node-1") as (H & _).
    apply (H [[]]); reflexivity.
  - destruct (getServerByName_exactly_one
                (fun _ => goodPages [[server_a]] ++
                          Fetched (ServerPage [server_b; server_c])
                          :: [Fetched (ServerPage [server_a]);
                              FetchFailed ErrNotFound]) "node-1")
      as (_ & H & _).
    apply (H [[server_a]] [server_b; server_c]);
      [reflexivity | simpl; lia | simpl; lia].
  - destruct (getServerByName_exactly_one
                (fun _ => goodPages [[server_a]]) "node-1")
      as (_ & _ & _ & H & _).
    apply (H [[server_a]]); reflexivity.
  - destruct (getServerByName_exactly_one
                (fun _ => goodPages [[server_a]]) "node-1")
      as (_ & _ & _ & _ & H & _).
    apply (H server_a []). reflexivity.
Defined.

(** ** getAddressByName *)

(** C3: after a successful name lookup, [getAddressByName] returns the first
    non-empty string among the first extracted "fixed" address, the first
    extracted "floating" address, the legacy IPv4 field and the legacy IPv6
    field, in this order, and fails with NoAddressFound exactly when all
    four are empty (an address list with no element counts as empty). *)
Theorem getAddressByName_policy api name srv :
  getServerByName api name = Done (Some srv, None) ->
  exists fixed floating,
    findAddrs (Addresses srv) "fixed" = Done fixed /\
    findAddrs (Addresses srv) "floating" = Done floating /\
    let candidates :=
      [hd "" fixed; hd "" floating; AccessIPv4 srv; AccessIPv6 srv] in
    getAddressByName api name
    = Done match firstNonEmpty candidates with
           | Some s => (s, None)
           | None => ("", Some ErrNoAddressFound)
           end /\
    (getAddressByName api name = Done ("", Some ErrNoAddressFound) <->
     Forall (fun c => c = "") candidates).
Proof.
  intros Hsrv.
  destruct (findAddrs_Done (Addresses srv) "fixed") as [fixed Hf].
  destruct (findAddrs_Done (Addresses srv) "floating") as [floating Hfl].
  exists fixed, floating. split; [assumption|]. split; [assumption|].
  cbv zeta.
  assert (Heq : getAddressByName api name
                = Done match firstNonEmpty
                               [hd "" fixed; hd "" floating;
                                AccessIPv4 srv; AccessIPv6 srv] with
                       | Some s => (s, None)
                       | None => ("", Some ErrNoAddressFound)
                       end).
  { unfold getAddressByName. rewrite Hsrv. cbn [bind deref].
    rewrite Hf, Hfl. unfold firstNonEmpty.
    generalize (AccessIPv4 srv) (AccessIPv6 srv). intros v4 v6.
    destruct fixed as [|a fixed]; destruct floating as [|b floating];
      cbn [bind List.length Nat.leb index nth_error hd find String.eqb negb];
      repeat match goal with
             | |- context [String.eqb ?x ""] =>
                 is_var x; destruct (String.eqb_spec x "");
                 [subst x|];
                 cbn [bind List.length Nat.leb index nth_error hd find
                      String.eqb negb]
             end;
      first [reflexivity | congruence]. }
  split; [exact Heq|].
  rewrite Heq. unfold firstNonEmpty.
  generalize (AccessIPv4 srv) (AccessIPv6 srv) (hd "" fixed) (hd "" floating).
  intros v4 v6 a b. cbn [find].
  split.
  - intros H.
    repeat match goal with
           | H : context [String.eqb ?x ""] |- _ =>
               is_var x; destruct (String.eqb_spec x ""); [subst x|];
               cbn [negb String.eqb] in H
           end; try (inversion H; congruence).
    repeat constructor.
  - intros H.
    inversion H as [|? ? H1 Ha]; subst. inversion Ha as [|? ? H2 Hb]; subst.
    inversion Hb as [|? ? H3 Hc]; subst.
    inversion Hc as [|? ? H4 _]; subst.
    reflexivity.
Qed.

Lemma getAddressByName_policy_witness :
  getServerByName (fun _ => goodPages [[server_a]]) "node-1"
  = Done (Some server_a, None) /\
  getAddressByName (fun _ => goodPages [[server_a]]) "node-1"
  = Done ("10.0.0.1", None).
Proof.
  split; [reflexivity|].
  destruct (@getAddressByName_policy
              (fun _ => goodPages [[server_a]]) "node-1" server_a eq_refl)
    as (fixed & floating & Hf & Hfl & Heq & _).
  rewrite Heq.
  vm_compute in Hf. vm_compute in Hfl.
  injection Hf as <-. injection Hfl as <-. reflexivity.
Defined.

(** ** NodeAddresses *)

Lemma fold_left_append {A B : Type} (f : A -> B) (l : list A) : forall acc,
  fold_left (fun acc a => acc ++ [f a]) l acc = acc ++ map f l.
Proof.
  induction l as [|a l IH]; intros acc; simpl.
  - now rewrite app_nil_r.
  - rewrite IH, <- app_assoc. reflexivity.
Qed.

Lemma NodeAddressType_eqb_eq a b : NodeAddressType_eqb a b = true <-> a = b.
Proof. destruct a, b; simpl; split; intros H; congruence. Qed.

Lemma NodeAddress_eqb_eq a b : NodeAddress_eqb a b = true <-> a = b.
Proof.
  destruct a as [ta aa], b as [tb ab]. unfold NodeAddress_eqb; simpl.
  rewrite andb_true_iff, String.eqb_eq, NodeAddressType_eqb_eq.
  split; [intros [-> ->]; reflexivity | intros H; inversion H; now split].
Qed.

Lemma existsb_NodeAddress l add :
  existsb (fun existing => NodeAddress_eqb existing add) l = true <-> In add l.
Proof.
  rewrite existsb_exists. split.
  - intros (x & Hin & Heq). apply NodeAddress_eqb_eq in Heq. now subst.
  - intros Hin. exists add. split; [assumption | now apply NodeAddress_eqb_eq].
Qed.

(** [api.AddToNodeAddresses] with two addresses to add. *)
Lemma AddToNodeAddresses_two base v6 v4 :
  exists legacy,
    AddToNodeAddresses base [v6; v4] = base ++ legacy /\
    (exists b6 b4 : bool,
        legacy = (if b6 then [v6] else []) ++ (if b4 then [v4] else [])) /\
    NoDup legacy /\
    (forall a, In a legacy -> ~ In a base) /\
    In v6 (base ++ legacy) /\ In v4 (base ++ legacy).
Proof.
  unfold AddToNodeAddresses; simpl.
  destruct (existsb (fun existing => NodeAddress_eqb existing v6) base) eqn:E6.
  - apply existsb_NodeAddress in E6.
    destruct (existsb (fun existing => NodeAddress_eqb existing v4) base) eqn:E4.
    + apply existsb_NodeAddress in E4. exists []. rewrite app_nil_r.
      repeat split; try assumption; try constructor.
      * now exists false, false.
      * intros a [].
    + assert (H4 : ~ In v4 base)
        by (intros H; apply existsb_NodeAddress in H; congruence).
      exists [v4]. repeat split.
      * now exists false, true.
      * repeat constructor. intros [].
      * intros a [<-|[]]. assumption.
      * apply in_or_app; now left.
      * apply in_or_app; right; now left.
  - assert (H6 : ~ In v6 base)
      by (intros H; apply existsb_NodeAddress in H; congruence).
    destruct (existsb (fun existing => NodeAddress_eqb existing v4)
                      (base ++ [v6])) eqn:E4.
    + apply existsb_NodeAddress in E4. exists [v6]. repeat split.
      * now exists true, false.
      * repeat constructor. intros [].
      * intros a [<-|[]]. assumption.
      * apply in_or_app; right; now left.
      * assumption.
    + assert (H4 : ~ In v4 (base ++ [v6]))
        by (intros H; apply existsb_NodeAddress in H; congruence).
      exists [v6; v4]. rewrite <- app_assoc. repeat split.
      * now exists true, true.
      * constructor.
        -- intros [->|[]]. apply H4, in_or_app. right; now left.
        -- repeat constructor. intros [].
      * intros a [<-|[<-|[]]]; [assumption|].
        intros H. apply H4, in_or_app. now left.
      * apply in_or_app; right; now left.
      * apply in_or_app; right; right; now left.
Qed.

(** C5, as the code has it: after a successful lookup [NodeAddresses]
    returns, in this order, an InternalIP entry for every extracted fixed
    address, an ExternalIP entry for every extracted floating address (both
    in the order of extraction, repetitions kept), and then the legacy IPv6
    and IPv4 fields as ExternalIP entries, each of the two left out when an
    entry with the same kind and address is already in the sequence. *)
Theorem NodeAddresses_order {P : Type} (os : OpenStack P) name srv :
  getServerByName (compute os) name = Done (Some srv, None) ->
  exists fixed floating legacy,
    findAddrs (Addresses srv) "fixed" = Done fixed /\
    findAddrs (Addresses srv) "floating" = Done floating /\
    let base :=
      map (fun a => {| Type_ := NodeInternalIP; Address := a |}) fixed ++
      map (fun a => {| Type_ := NodeExternalIP; Address := a |}) floating in
    let v6 := {| Type_ := NodeExternalIP; Address := AccessIPv6 srv |} in
    let v4 := {| Type_ := NodeExternalIP; Address := AccessIPv4 srv |} in
    NodeAddresses os name = Done (base ++ legacy, None) /\
    (exists b6 b4 : bool,
        legacy = (if b6 then [v6] else []) ++ (if b4 then [v4] else [])) /\
    NoDup legacy /\
    (forall a, In a legacy -> ~ In a base) /\
    In v6 (base ++ legacy) /\ In v4 (base ++ legacy).
Proof.
  intros Hsrv.
  destruct (findAddrs_Done (Addresses srv) "fixed") as [fixed Hf].
  destruct (findAddrs_Done (Addresses srv) "floating") as [floating Hfl].
  set (base :=
         map (fun a => {| Type_ := NodeInternalIP; Address := a |}) fixed ++
         map (fun a => {| Type_ := NodeExternalIP; Address := a |}) floating).
  destruct (AddToNodeAddresses_two base
              {| Type_ := NodeExternalIP; Address := AccessIPv6 srv |}
              {| Type_ := NodeExternalIP; Address := AccessIPv4 srv |})
    as (legacy & Hadd & Hrest).
  exists fixed, floating, legacy.
  split; [assumption|]. split; [assumption|]. cbv zeta. fold base.
  split; [|exact Hrest].
  unfold NodeAddresses. rewrite Hsrv. cbn [bind deref].
  rewrite Hf, Hfl. cbn [bind].
  rewrite !fold_left_append. cbn [app].
  apply (f_equal (fun l => Done (l, None))). exact Hadd.
Qed.

Lemma NodeAddresses_order_witness :
  getServerByName (compute (sample_os (fun _ => goodPages [[server_a]])))
                  "node-1"
  = Done (Some server_a, None) /\
  exists legacy,
    NodeAddresses (sample_os (fun _ => goodPages [[server_a]])) "node-1"
    = Done ([ {| Type_ := NodeInternalIP; Address := "10.0.0.1" |};
              {| Type_ := NodeExternalIP; Address := "1.2.3.4" |} ] ++ legacy,
            None) /\
    NoDup legacy /\
    In {| Type_ := NodeExternalIP; Address := "" |}
       ([ {| Type_ := NodeInternalIP; Address := "10.0.0.1" |};
          {| Type_ := NodeExternalIP; Address := "1.2.3.4" |} ] ++ legacy).
Proof.
  split; [reflexivity|].
  destruct (@NodeAddresses_order unit
              (sample_os (fun _ => goodPages [[server_a]]))
              "node-1" server_a eq_refl)
    as (fixed & floating & legacy & Hf & Hfl & Heq & _ & Hnd & _ & Hin & _).
  vm_compute in Hf. vm_compute in Hfl.
  injection Hf as <-. injection Hfl as <-.
  exists legacy. repeat split; assumption.
Defined.

(** C5 as stated fails: two networks that carry the same fixed address give
    the same InternalIP entry twice. *)
Lemma NodeAddresses_keeps_duplicates :
  NodeAddresses (sample_os (fun _ => goodPages [[server_dup]])) "node-2"
  = Done ([ {| Type_ := NodeInternalIP; Address := "10.0.0.1" |};
            {| Type_ := NodeInternalIP; Address := "10.0.0.1" |};
            {| Type_ := NodeExternalIP; Address := "" |} ], None) /\
  ~ NoDup [ {| Type_ := NodeInternalIP; Address := "10.0.0.1" |};
            {| Type_ := NodeInternalIP; Address := "10.0.0.1" |};
            {| Type_ := NodeExternalIP; Address := "" |} ].
Proof.
  split; [reflexivity|].
  intros H. inversion H as [|? ? Hnotin _]. apply Hnotin. now left.
Qed.

(** ** ExternalID and InstanceID *)

(** C9: [ExternalID] and [InstanceID] agree with the lookup and with each
    other: when the lookup returns a server, the first returns its id and
    the second that id behind "/"; when the lookup fails, both return the
    empty string and the error of the lookup. *)
Theorem InstanceID_ExternalID {P : Type} (os : OpenStack P) name :
  exists srv err,
    getServerByName (compute os) name = Done (srv, err) /\
    match srv, err with
    | Some s, None =>
        ExternalID os name = Done (ID s, None) /\
        InstanceID os name = Done (("/" ++ ID s)%string, None)
    | None, Some e =>
        ExternalID os name = Done ("", Some e) /\
        InstanceID os name = Done ("", Some e)
    | _, _ => False
    end.
Proof.
  unfold ExternalID, InstanceID.
  destruct (getServerByName_cases (compute os) name) as [[s H]|[e H]];
    rewrite H.
  - exists (Some s), None. repeat split.
  - exists None, (Some e). repeat split.
Qed.

(** ** getServerByAddress *)

(** C2 fails on the code: an ACTIVE server without a fixed address makes
    [getServerByAddress] index an empty slice, and the lookup panics instead
    of going on to the next server; [getAddressByName] checks the length
    before it indexes and answers for the same server. *)
Theorem getServerByAddress_panics_without_fixed :
  findAddrs (Addresses server_b) "fixed" = Done [] /\
  getServerByAddress (fun _ => goodPages [[server_b; server_a]]) "10.0.0.1"
  = Panic "index out of range" /\
  getServerByAddress (fun _ => goodPages [[server_a]]) "10.0.0.1"
  = Done (Some server_a, None) /\
  getAddressByName (fun _ => goodPages [[server_b]]) "node-1"
  = Done ("5.6.7.8", None).
Proof. repeat split. Qed.

(** ** The name filter *)

Lemma special_false b :
  special b = false ->
  Ascii.eqb b "^" = false /\ Ascii.eqb b "$" = false /\
  Ascii.eqb b "\" = false /\ Ascii.eqb b "." = false.
Proof.
  unfold special; simpl. intros H.
  repeat match type of H with
         | (_ || _)%bool = false => apply orb_false_iff in H; destruct H as [? H]
         end.
  repeat split; assumption.
Qed.

(** Every byte of the name, escaped or not, is read back as a literal. *)
Lemma tokens_QuoteMeta name :
  tokens false (QuoteMeta name ++ "$")%string
  = Some (map Lit (list_ascii_of_string name) ++ [Eol]).
Proof.
  induction name as [|b name IH].
  - reflexivity.
  - cbn [QuoteMeta list_ascii_of_string map app].
    destruct (special b) eqn:Hb.
    + cbn [String.append tokens]. cbn [Ascii.eqb Bool.eqb].
      rewrite Hb, IH. reflexivity.
    + destruct (special_false _ Hb) as (H1 & H2 & H3 & H4).
      cbn [String.append tokens]. rewrite H1, H2, H3, H4, Hb, IH. reflexivity.
Qed.

Lemma tokens_nameFilter name :
  tokens true (nameFilter name)
  = Some (Bol :: map Lit (list_ascii_of_string name) ++ [Eol]).
Proof.
  unfold nameFilter. cbn [String.append tokens]. cbn [Ascii.eqb Bool.eqb].
  now rewrite tokens_QuoteMeta.
Qed.

Lemma matchHere_literal name : forall s,
  matchHere (map Lit (list_ascii_of_string name) ++ [Eol]) s
  = String.eqb name s.
Proof.
  induction name as [|b name IH]; intros s.
  - destruct s; reflexivity.
  - destruct s as [|d s]; [reflexivity|].
    cbn [list_ascii_of_string map app matchHere String.eqb].
    rewrite IH. now destruct (Ascii.eqb b d).
Qed.

Lemma regexMatch_nameFilter name s :
  regexMatch (nameFilter name) s = Some (String.eqb name s).
Proof.
  unfold regexMatch. now rewrite tokens_nameFilter, matchHere_literal.
Qed.

Lemma concat_paginate fuel limit : forall l,
  List.concat (paginate fuel limit l) = l.
Proof.
  induction fuel as [|fuel IH]; intros l; destruct l as [|s l];
    try reflexivity.
  - simpl. now rewrite app_nil_r.
  - cbn [paginate List.concat]. rewrite IH. apply firstn_skipn.
Qed.



Lemma selected_byName name s :
  selected (byNameOpts name) s
  = String.eqb (Status s) "ACTIVE" && String.eqb name (Name s).
Proof.
  unfold selected. cbn [ListOpts.Name ListOpts.Status byNameOpts].
  now rewrite regexMatch_nameFilter.
Qed.

Lemma computeAPI_byName inventory limit name :
  let hits := filter (selected (byNameOpts name)) inventory in
  computeAPI inventory limit (byNameOpts name)
  = goodPages (paginate (List.length hits) limit hits).
Proof.
  unfold computeAPI. cbn [ListOpts.Name byNameOpts].
  now rewrite tokens_nameFilter.
Qed.

(** Against an endpoint that holds [inventory], the lookup counts the ACTIVE
    servers that carry exactly the requested name. *)
Lemma getServerByName_inventory inventory limit name :
  getServerByName (computeAPI inventory limit) name
  = match filter (fun s => String.eqb (Status s) "ACTIVE"
                           && String.eqb name (Name s)) inventory with
    | [] => Done (None, Some ErrNotFound)
    | [s] => Done (Some s, None)
    | _ :: _ :: _ => Done (None, Some ErrMultipleResults)
    end.
Proof.
  pose proof (computeAPI_byName inventory limit name) as Hp. cbv zeta in Hp.
  rewrite (filter_ext _ _ (selected_byName name)) in Hp.
  destruct (filter _ inventory) as [|s [|s' hits]] eqn:Hhits.
  - rewrite run_unfold, (run_none _ _ _ Hp); [reflexivity|].
    apply concat_paginate.
  - rewrite run_unfold, (run_one _ _ _ Hp (s := s)); [reflexivity|].
    apply concat_paginate.
  - apply (run_many _ _ _ Hp). rewrite concat_paginate. simpl; lia.
Qed.



(** ** The instance-identity resolver *)

Lemma lacks_uuid_cons k v members :
  lacks_uuid ((k, v) :: members)
  = negb (eqFold "UUID" k) && lacks_uuid members.
Proof. reflexivity. Qed.

Lemma decodeUUID_lacks members : forall uuid,
  lacks_uuid members = true -> decodeUUID members uuid = Ok uuid.
Proof.
  induction members as [|[k v] members IH]; intros uuid H; simpl in *.
  - reflexivity.
  - apply andb_true_iff in H. destruct H as [Hk H].
    apply negb_true_iff in Hk. rewrite Hk. now apply IH.
Qed.

Lemma decodeUUID_last before : forall k s after uuid,
  eqFold "UUID" k = true -> lacks_uuid after = true ->
  decodeUUID (before ++ (k, VString s) :: after) uuid = Ok s \/
  exists e, decodeUUID (before ++ (k, VString s) :: after) uuid = Err e.
Proof.
  induction before as [|[k' v'] before IH]; intros k s after uuid Hk Hafter.
  - left. cbn [app decodeUUID]. rewrite Hk. now apply decodeUUID_lacks.
  - cbn [app decodeUUID].
    destruct (eqFold "UUID" k'); [|now apply IH].
    destruct v'; try (right; eexists; reflexivity); now apply IH.
Qed.

Section IdentityFacts.

Variable json_parse : string -> result value.

Lemma parseMetadataUUID_cases jsonData :
  (exists e, parseMetadataUUID json_parse jsonData = ("", Some e)) \/
  (exists uuid, uuid <> "" /\
                parseMetadataUUID json_parse jsonData = (uuid, None)).
Proof.
  unfold parseMetadataUUID.
  destruct (json_Unmarshal json_parse jsonData) as [uuid|e].
  - destruct (String.eqb_spec uuid "").
    + left. eexists; reflexivity.
    + right. now exists uuid.
  - left. now exists e.
Qed.

(** Whenever the resolver reports an error, the identifier is empty. *)
Lemma readInstanceID_error h id e :
  fst (readInstanceID json_parse h) = (id, Some e) -> id = "".
Proof.
  unfold readInstanceID.
  destruct (ioutil_ReadFile h _) as [content|e0].
  - destruct (String.eqb (TrimSpace content) ""); cbn [negb fst];
      [|congruence].
    destruct (http_Get h metadataUrl) as [resp|e1]; [|cbn; congruence].
    destruct (Response.StatusCode resp =? 200)%Z; cbn [negb fst];
      [|congruence].
    destruct (Response.Body resp) as [body|e2]; [|cbn; congruence].
    destruct (parseMetadataUUID json_parse body) as [i [e3|]]; cbn; congruence.
  - destruct (http_Get h metadataUrl) as [resp|e1]; [|cbn; congruence].
    destruct (Response.StatusCode resp =? 200)%Z; cbn [negb fst];
      [|congruence].
    destruct (Response.Body resp) as [body|e2]; [|cbn; congruence].
    destruct (parseMetadataUUID json_parse body) as [i [e3|]]; cbn; congruence.
Qed.

End IdentityFacts.

(** C7: the resolver reads the marker file first; when the file is there
    and its content is not empty after trimming white space, the trimmed
    content is the identifier and no HTTP request is made.  Only when the
    file is missing or empty is the metadata URL requested, once: the
    request must succeed with status 200, the body must be read and must
    parse as a JSON object, and the resolution fails when the field "uuid"
    (matched by Go's decoder without regard to letter case) is absent or
    empty; a non-empty "uuid" is the identifier. *)
Theorem readInstanceID_prefers_file json_parse h :
  (forall content,
      ioutil_ReadFile h "/var/lib/cloud/data/instance-id" = Ok content ->
      TrimSpace content <> "" ->
      readInstanceID json_parse h = ((TrimSpace content, None), [])) /\
  ((forall content,
       ioutil_ReadFile h "/var/lib/cloud/data/instance-id" = Ok content ->
       TrimSpace content = "") ->
   snd (readInstanceID json_parse h) = [metadataUrl] /\
   fst (readInstanceID json_parse h)
   = match http_Get h metadataUrl with
     | Err e => ("", Some e)
     | Ok resp =>
         if (Response.StatusCode resp =? 200)%Z then
           match Response.Body resp with
           | Err e => ("", Some e)
           | Ok body => parseMetadataUUID json_parse body
           end
         else
           ("", Some (Errorf
                  ("got unexpected status code when reading metadata from "
                   ++ metadataUrl ++ ": " ++ Response.Status resp)%string))
     end) /\
  (forall body,
      (forall e, json_parse body = Err e ->
                 parseMetadataUUID json_parse body = ("", Some e)) /\
      (forall v, json_parse body = Ok v ->
                 (forall members, v <> VMap members) ->
                 exists e, parseMetadataUUID json_parse body = ("", Some e)) /\
      (forall members,
          json_parse body = Ok (VMap members) ->
          lacks_uuid members = true ->
          parseMetadataUUID json_parse body
          = ("", Some (Errorf "cannot parse OpenStack metadata, got empty uuid"))) /\
      (forall before k after,
          json_parse body = Ok (VMap (before ++ (k, VString "") :: after)) ->
          eqFold "UUID" k = true -> lacks_uuid after = true ->
          exists e, parseMetadataUUID json_parse body = ("", Some e)) /\
      (forall before k u after,
          json_parse body = Ok (VMap (before ++ (k, VString u) :: after)) ->
          eqFold "UUID" k = true -> u <> "" ->
          lacks_uuid before = true -> lacks_uuid after = true ->
          parseMetadataUUID json_parse body = (u, None))) /\
  eqFold "UUID" "uuid" = true /\
  TrimSpace ("  abc123" ++ String "010" "")%string = "abc123".
Proof.
  split; [|split; [|split; [|split; reflexivity]]].
  - intros content Hfile Hne. unfold readInstanceID. rewrite Hfile.
    destruct (String.eqb_spec (TrimSpace content) ""); [contradiction|].
    reflexivity.
  - intros Hempty.
    assert (Hfall :
              match ioutil_ReadFile h "/var/lib/cloud/data/instance-id" with
              | Ok idBytes =>
                  if negb (String.eqb (TrimSpace idBytes) "")
                  then Some (TrimSpace idBytes) else None
              | Err _ => None
              end = None).
    { destruct (ioutil_ReadFile h _) as [content|e]; [|reflexivity].
      rewrite (Hempty content eq_refl). reflexivity. }
    unfold readInstanceID. rewrite Hfall.
    destruct (http_Get h metadataUrl) as [resp|e]; [|now split].
    destruct (Response.StatusCode resp =? 200)%Z; cbn [negb]; [|now split].
    destruct (Response.Body resp) as [body|e]; [|now split].
    destruct (parseMetadataUUID_cases json_parse body)
      as [[e ->]|(uuid & _ & ->)]; now split.
  - intros body. unfold parseMetadataUUID, json_Unmarshal.
    split; [|split; [|split; [|split]]].
    + intros e ->. reflexivity.
    + intros v -> Hv.
      destruct v; try (eexists; reflexivity). now destruct (Hv m).
    + intros members -> Hl. now rewrite decodeUUID_lacks.
    + intros before k after -> Hk Hafter.
      destruct (decodeUUID_last before k "" after "" Hk Hafter)
        as [->|[e ->]]; eexists; reflexivity.
    + intros before k u after -> Hk Hu Hb Hafter.
      assert (Hd : decodeUUID (before ++ (k, VString u) :: after) "" = Ok u).
      { clear Hu. revert Hb. generalize "" as uuid.
        induction before as [|[k' v'] before IH]; intros uuid Hb.
        - cbn [app decodeUUID]. rewrite Hk. now apply decodeUUID_lacks.
        - cbn [app decodeUUID]. rewrite lacks_uuid_cons in Hb.
          apply andb_true_iff in Hb. destruct Hb as [Hk' Hb].
          apply negb_true_iff in Hk'. rewrite Hk'. now apply IH. }
      rewrite Hd. destruct (String.eqb_spec u ""); [contradiction|reflexivity].
Qed.

Lemma readInstanceID_prefers_file_witness :
  readInstanceID parse_sample
                 (host_with_file ("  abc123" ++ String "010" "")%string)
  = (("abc123", None), []) /\
  snd (readInstanceID parse_sample (host_without_file 404 "")) = [metadataUrl] /\
  (exists e, fst (readInstanceID parse_sample (host_without_file 404 ""))
             = ("", Some e)) /\
  parseMetadataUUID parse_sample sample_metadata = ("xyz", None).
Proof.
  split; [|split; [|split]].
  - destruct (readInstanceID_prefers_file parse_sample
                (host_with_file ("  abc123" ++ String "010" "")%string))
      as (H & _).
    apply (H ("  abc123" ++ String "010" "")%string); [reflexivity|].
    vm_compute. discriminate.
  - destruct (readInstanceID_prefers_file parse_sample
                (host_without_file 404 "")) as (_ & H & _).
    apply H. intros content Hc. discriminate Hc.
  - destruct (readInstanceID_prefers_file parse_sample
                (host_without_file 404 "")) as (_ & H & _).
    destruct H as [_ H]; [intros content Hc; discriminate Hc|].
    rewrite H. eexists. reflexivity.
  - destruct (readInstanceID_prefers_file parse_sample (host_with_file ""))
      as (_ & _ & H & _).
    destruct (H sample_metadata) as (_ & _ & _ & _ & H5).
    apply (H5 [] "uuid" "xyz" []); try reflexivity. discriminate.
Defined.

(** ** newOpenStack *)

(** C8: when authentication and both endpoint resolutions succeed, a failed
    identity resolution does not fail the construction: the provider is
    built from the resolved clients and the configuration, with an empty
    local instance identifier. *)
Theorem newOpenStack_without_identity {P : Type}
  (authenticate : AuthOptions.t -> result P)
  (newNetwork newCompute : P -> EndpointOpts.t -> result ServiceClient)
  (json_parse : string -> result value) (host : Host) (cfg : Config)
  (p : P) (net comp : ServiceClient) (id : string) (e : error) :
  authenticate (toAuthOptions cfg) = Ok p ->
  newNetwork p {| EndpointOpts.Region := Global.Region (Global cfg) |} = Ok net ->
  newCompute p {| EndpointOpts.Region := Global.Region (Global cfg) |} = Ok comp ->
  fst (readInstanceID json_parse host) = (id, Some e) ->
  newOpenStack authenticate newNetwork newCompute json_parse host cfg
  = (Some {| provider := p; compute := comp; network := net;
             region := Global.Region (Global cfg);
             lbOpts := LoadBalancer cfg; routeOpts := Route cfg;
             localInstanceID := "" |}, None).
Proof.
  intros Ha Hn Hc Hid. unfold newOpenStack.
  rewrite Ha, Hid, Hn, Hc.
  now rewrite (readInstanceID_error _ _ Hid).
Qed.

Lemma newOpenStack_without_identity_witness :
  fst (readInstanceID parse_sample (host_without_file 404 ""))
  = ("", Some (Errorf ("got unexpected status code when reading metadata from "
                       ++ metadataUrl ++ ": ")%string)) /\
  exists os,
    newOpenStack (fun _ => Ok tt) (fun _ _ => Ok (fun _ => []))
                 (fun _ _ => Ok (computeAPI [server_a] 0))
                 parse_sample (host_without_file 404 "") sample_cfg
    = (Some os, None) /\ localInstanceID os = "".
Proof.
  split; [reflexivity|].
  eexists. split.
  - apply (@newOpenStack_without_identity unit (fun _ => Ok tt)
             (fun _ _ => Ok (fun _ => []))
             (fun _ _ => Ok (computeAPI [server_a] 0))
             parse_sample (host_without_file 404 "") sample_cfg tt
             (fun _ => []) (computeAPI [server_a] 0) ""
             (Errorf ("got unexpected status code when reading metadata from "
                      ++ metadataUrl ++ ": ")%string));
      reflexivity.
  - reflexivity.
Defined.

(** * Further properties *)

(** ** findInstances and List *)

Lemma findInstances_handler_good l acc :
  findInstances_handler (ServerPage l) acc
  = Done (true, None, acc ++ map Name l).
Proof.
  unfold findInstances_handler; simpl. now rewrite fold_left_append.
Qed.

Lemma collect_good pages : forall acc,
  EachPage findInstances_handler (goodPages pages) acc
  = Done (None, acc ++ map Name (List.concat pages), []).
Proof.
  induction pages as [|l pages IH]; intros acc;
    cbn [goodPages map EachPage List.concat].
  - now rewrite app_nil_r.
  - rewrite findInstances_handler_good, bind_Done. fold (goodPages pages).
    rewrite IH, map_app, app_assoc. reflexivity.
Qed.

Lemma collect_bad pre : forall bad rest e acc,
  fails_with e bad ->
  EachPage findInstances_handler (goodPages pre ++ bad :: rest) acc
  = Done (Some e, acc ++ map Name (List.concat pre), rest).
Proof.
  induction pre as [|l pre IH]; intros bad rest e acc Hbad;
    cbn [goodPages map EachPage List.concat app].
  - rewrite app_nil_r. now destruct Hbad as [-> | ->].
  - rewrite findInstances_handler_good, bind_Done. fold (goodPages pre).
    rewrite (IH _ _ _ _ Hbad), map_app, app_assoc. reflexivity.
Qed.

(** X1: when every request of the listing succeeds, [findInstances] (and
    [List] on top of it) returns the names of all the servers of all the
    pages, in the order of the pages, and no request is left unmade. *)
Theorem List_all_names {P : Type} (os : OpenStack P) name_filter pages :
  compute os {| ListOpts.Name := name_filter; ListOpts.Status := "ACTIVE" |}
  = goodPages pages ->
  findInstances_run (compute os) name_filter
  = Done (map Name (List.concat pages), None, []) /\
  List os name_filter = Done (map Name (List.concat pages), None).
Proof.
  intros Hp.
  assert (Hrun : findInstances_run (compute os) name_filter
                 = Done (map Name (List.concat pages), None, [])).
  { unfold findInstances_run, servers_List. now rewrite Hp, collect_good. }
  split; [exact Hrun|].
  unfold List, findInstances. now rewrite Hrun.
Qed.

Lemma List_all_names_witness :
  List (sample_os (fun _ => goodPages [[server_a; server_axb]; [server_dup]]))
       "node"
  = Done (["node-1"; "axb"; "node-2"], None).
Proof.
  apply (@List_all_names unit
           (sample_os (fun _ => goodPages [[server_a; server_axb]; [server_dup]]))
           "node" [[server_a; server_axb]; [server_dup]]).
  reflexivity.
Defined.

(** X2: the first request that fails, or page that cannot be extracted,
    ends the listing: its error is returned with no names at all, the names
    of the earlier pages being dropped, and the later requests are not
    made. *)
Theorem List_error_drops_names {P : Type} (os : OpenStack P) name_filter
  pre bad rest e :
  compute os {| ListOpts.Name := name_filter; ListOpts.Status := "ACTIVE" |}
  = goodPages pre ++ bad :: rest ->
  fails_with e bad ->
  findInstances_run (compute os) name_filter = Done ([], Some e, rest) /\
  List os name_filter = Done ([], Some e).
Proof.
  intros Hp Hbad.
  assert (Hrun : findInstances_run (compute os) name_filter
                 = Done ([], Some e, rest)).
  { unfold findInstances_run, servers_List.
    now rewrite Hp, (collect_bad _ _ _ Hbad). }
  split; [exact Hrun|].
  unfold List, findInstances. now rewrite Hrun.
Qed.

Lemma List_error_drops_names_witness :
  List (sample_os (fun _ => goodPages [[server_a]]
                            ++ Fetched (BrokenPage (LibError "unexpected EOF"))
                            :: goodPages [[server_dup]]))
       "node"
  = Done ([], Some (LibError "unexpected EOF")).
Proof.
  apply (@List_error_drops_names unit
           (sample_os (fun _ => goodPages [[server_a]]
                                ++ Fetched (BrokenPage (LibError "unexpected EOF"))
                                :: goodPages [[server_dup]]))
           "node" [[server_a]]
           (Fetched (BrokenPage (LibError "unexpected EOF")))
           (goodPages [[server_dup]]) (LibError "unexpected EOF")).
  - reflexivity.
  - right; reflexivity.
Defined.

(** X3: the exact lookup and the listing agree.  Listing with the anchored
    filter of a name asks the endpoint the very question of the exact
    lookup; when all its requests succeed, the lookup fails with NotFound,
    returns the server, or fails with MultipleResults according to whether
    the listing holds no, one, or several servers. *)
Theorem getServerByName_counts_listing client name pages :
  client (byNameOpts name) = goodPages pages ->
  findInstances client (nameFilter name)
  = Done (map Name (List.concat pages), None) /\
  getServerByName client name
  = Done match List.concat pages with
         | [] => (None, Some ErrNotFound)
         | [s] => (Some s, None)
         | _ :: _ :: _ => (None, Some ErrMultipleResults)
         end.
Proof.
  intros Hp. split.
  - unfold findInstances, findInstances_run, servers_List.
    change {| ListOpts.Name := nameFilter name; ListOpts.Status := "ACTIVE" |}
      with (byNameOpts name).
    now rewrite Hp, collect_good.
  - destruct (List.concat pages) as [|s [|s' l]] eqn:Hc.
    + now rewrite run_unfold, (run_none _ _ _ Hp Hc).
    + now rewrite run_unfold, (run_one _ _ _ Hp Hc).
    + apply (run_many _ _ _ Hp). rewrite Hc. simpl; lia.
Qed.

Lemma getServerByName_counts_listing_witness :
  findInstances (fun _ => goodPages [[server_a]; [server_b]])
                (nameFilter "node-1")
  = Done (["node-1"; "node-1"], None) /\
  getServerByName (fun _ => goodPages [[server_a]; [server_b]]) "node-1"
  = Done (None, Some ErrMultipleResults).
Proof.
  apply (@getServerByName_counts_listing
           (fun _ => goodPages [[server_a]; [server_b]]) "node-1"
           [[server_a]; [server_b]]).
  reflexivity.
Defined.

(** ** getServerByName: errors of the listing *)

Lemma scan_bad pre : forall bad rest e acc,
  fails_with e bad ->
  List.length (acc ++ List.concat pre) <= 1 ->
  EachPage getServerByName_handler (goodPages pre ++ bad :: rest) acc
  = Done (Some e, acc ++ List.concat pre, rest).
Proof.
  induction pre as [|l pre IH]; intros bad rest e acc Hbad Hlen; simpl in *.
  - rewrite app_nil_r. now destruct Hbad as [-> | ->].
  - rewrite app_assoc in Hlen.
    rewrite handler_few by (etransitivity; [apply length_app_le | exact Hlen]).
    rewrite bind_Done. fold (goodPages pre).
    rewrite (IH _ _ _ _ Hbad Hlen), app_assoc. reflexivity.
Qed.

(** X4: a request that fails, or a page that cannot be extracted, before a
    second server has been seen makes the exact lookup fail with that very
    error: no server is returned even when one had been found already, and
    the later requests are not made. *)
Theorem getServerByName_error_propagates client name pre bad rest e :
  client (byNameOpts name) = goodPages pre ++ bad :: rest ->
  fails_with e bad ->
  List.length (List.concat pre) <= 1 ->
  getServerByName_run client name = Done (None, Some e, rest).
Proof.
  intros Hp Hbad Hlen. unfold getServerByName_run, servers_List.
  rewrite Hp, (@scan_bad pre bad rest e [])
    by first [exact Hbad | simpl; assumption].
  reflexivity.
Qed.

Lemma getServerByName_error_propagates_witness :
  getServerByName_run
    (fun _ => goodPages [[server_a]]
              ++ FetchFailed (LibError "connection reset")
              :: goodPages [[server_b]])
    "node-1"
  = Done (None, Some (LibError "connection reset"), goodPages [[server_b]]).
Proof.
  apply (@getServerByName_error_propagates
           (fun _ => goodPages [[server_a]]
                     ++ FetchFailed (LibError "connection reset")
                     :: goodPages [[server_b]])
           "node-1" [[server_a]] (FetchFailed (LibError "connection reset"))
           (goodPages [[server_b]]) (LibError "connection reset")).
  - reflexivity.
  - left; reflexivity.
  - simpl; lia.
Defined.

(** ** getServerByAddress *)

Lemma firstFixed_None s :
  firstFixed s = None -> findAddrs (Addresses s) "fixed" = Done [].
Proof.
  unfold firstFixed.
  destruct (findAddrs_Done (Addresses s) "fixed") as [[|a l] ->];
    [reflexivity | discriminate].
Qed.

Lemma firstFixed_Some s a :
  firstFixed s = Some a ->
  exists l, findAddrs (Addresses s) "fixed" = Done (a :: l).
Proof.
  unfold firstFixed.
  destruct (findAddrs_Done (Addresses s) "fixed") as [[|b l] ->];
    [discriminate|].
  intros H; injection H as ->. now exists l.
Qed.

Lemma fixed_or_not (l : list Server) :
  Forall (fun s => firstFixed s <> None) l \/
  Exists (fun s => firstFixed s = None) l.
Proof.
  induction l as [|s l [IH|IH]].
  - left; constructor.
  - destruct (firstFixed s) eqn:E.
    + left. constructor; [congruence | assumption].
    + right. now constructor.
  - right. now constructor 2.
Qed.

Lemma address_handler_ok ip l : forall acc,
  Forall (fun s => firstFixed s <> None) l ->
  getServerByAddress_handler ip (ServerPage l) acc
  = Done (true, None, acc ++ filter (hasAddress ip) l).
Proof.
  unfold getServerByAddress_handler. cbn [ExtractServers].
  induction l as [|s l IH]; intros acc Hall; cbn [forRange filter].
  - now rewrite app_nil_r.
  - inversion Hall as [|? ? Hs Hl]; subst.
    destruct (firstFixed s) as [a|] eqn:E; [|contradiction].
    destruct (firstFixed_Some _ E) as [rest Hf].
    rewrite Hf. cbn [bind index nth_error].
    unfold hasAddress. rewrite E.
    destruct (String.eqb a ip); cbn [bind].
    + specialize (IH (acc ++ [s]) Hl). cbn [bind] in IH.
      rewrite <- app_assoc in IH. exact IH.
    + exact (IH acc Hl).
Qed.

Lemma address_handler_panic ip l : forall acc,
  Exists (fun s => firstFixed s = None) l ->
  getServerByAddress_handler ip (ServerPage l) acc
  = Panic "index out of range".
Proof.
  unfold getServerByAddress_handler. cbn [ExtractServers].
  induction l as [|s l IH]; intros acc Hex; [inversion Hex|].
  cbn [forRange].
  destruct (firstFixed s) as [a|] eqn:E.
  - destruct (firstFixed_Some _ E) as [rest Hf].
    rewrite Hf. cbn [bind index nth_error].
    inversion Hex as [? ? Hs|? ? Hl]; subst; [congruence|].
    destruct (String.eqb a ip); cbn [bind]; now apply IH.
  - rewrite (firstFixed_None _ E). reflexivity.
Qed.

Lemma address_scan_ok ip pages : forall acc,
  Forall (fun s => firstFixed s <> None) (List.concat pages) ->
  EachPage (getServerByAddress_handler ip) (goodPages pages) acc
  = Done (None, acc ++ filter (hasAddress ip) (List.concat pages), []).
Proof.
  induction pages as [|l pages IH]; intros acc Hall;
    cbn [goodPages map EachPage List.concat filter].
  - now rewrite app_nil_r.
  - cbn [List.concat] in Hall. apply Forall_app in Hall.
    destruct Hall as [Hl Hrest].
    rewrite (address_handler_ok ip acc Hl), bind_Done. fold (goodPages pages).
    rewrite (IH _ Hrest), filter_app, app_assoc. reflexivity.
Qed.

Lemma address_scan_panic ip pages : forall acc,
  Exists (fun s => firstFixed s = None) (List.concat pages) ->
  EachPage (getServerByAddress_handler ip) (goodPages pages) acc
  = Panic "index out of range".
Proof.
  induction pages as [|l pages IH]; intros acc Hex;
    cbn [goodPages map EachPage List.concat] in *; [inversion Hex|].
  destruct (fixed_or_not l) as [Hl|Hl].
  - apply Exists_app in Hex. destruct Hex as [Hex|Hex].
    + now rewrite (address_handler_panic ip acc Hex).
    + rewrite (address_handler_ok ip acc Hl), bind_Done.
      fold (goodPages pages). now apply IH.
  - now rewrite (address_handler_panic ip acc Hl).
Qed.

(** X5: when every request of the listing succeeds and some listed server
    has no extractable "fixed" address, the lookup by address panics with
    an index out of range, whatever the address asked for and wherever in
    the listing that server stands. *)
Theorem getServerByAddress_panics compute ip pages :
  compute {| ListOpts.Name := ""; ListOpts.Status := "ACTIVE" |}
  = goodPages pages ->
  Exists (fun s => firstFixed s = None) (List.concat pages) ->
  getServerByAddress compute ip = Panic "index out of range".
Proof.
  intros Hp Hex. unfold getServerByAddress, servers_List.
  now rewrite Hp, (@address_scan_panic ip pages [] Hex).
Qed.

Lemma getServerByAddress_panics_witness :
  getServerByAddress (fun _ => goodPages [[server_a]; [server_dup; server_c]])
                     "10.9.9.9"
  = Panic "index out of range".
Proof.
  apply (@getServerByAddress_panics
           (fun _ => goodPages [[server_a]; [server_dup; server_c]])
           "10.9.9.9" [[server_a]; [server_dup; server_c]]).
  - reflexivity.
  - simpl. right; right; left; reflexivity.
Defined.

(** X6: when every request succeeds and every listed server has a "fixed"
    address, the lookup by address lists the ACTIVE servers without a name
    filter, requests every page (it does not stop at a second match), and
    answers by the number of servers whose first "fixed" address is the one
    asked for: NotFound for none, the server for one, MultipleResults for
    several. *)
Theorem getServerByAddress_by_first_fixed compute ip pages :
  compute {| ListOpts.Name := ""; ListOpts.Status := "ACTIVE" |}
  = goodPages pages ->
  Forall (fun s => firstFixed s <> None) (List.concat pages) ->
  EachPage (getServerByAddress_handler ip) (goodPages pages) []
  = Done (None, filter (hasAddress ip) (List.concat pages), []) /\
  getServerByAddress compute ip
  = Done match filter (hasAddress ip) (List.concat pages) with
         | [] => (None, Some ErrNotFound)
         | [s] => (Some s, None)
         | _ :: _ :: _ => (None, Some ErrMultipleResults)
         end.
Proof.
  intros Hp Hall.
  pose proof (@address_scan_ok ip pages [] Hall) as Hscan. cbn [app] in Hscan.
  split; [exact Hscan|].
  unfold getServerByAddress, servers_List. rewrite Hp, Hscan, bind_Done.
  now destruct (filter (hasAddress ip) (List.concat pages)) as [|s [|s' l]].
Qed.

Lemma getServerByAddress_by_first_fixed_witness :
  getServerByAddress (fun _ => goodPages [[server_a]; [server_dup]]) "10.0.0.1"
  = Done (None, Some ErrMultipleResults) /\
  EachPage (getServerByAddress_handler "10.0.0.1")
           (goodPages [[server_a]; [server_dup]]) []
  = Done (None, [server_a; server_dup], []).
Proof.
  destruct (@getServerByAddress_by_first_fixed
              (fun _ => goodPages [[server_a]; [server_dup]]) "10.0.0.1"
              [[server_a]; [server_dup]] eq_refl) as [H1 H2].
  - repeat constructor; discriminate.
  - split; [exact H2 | exact H1].
Defined.

(** ** findAddrs: counting *)

Lemma pick_two t1 t2 entry :
  t1 <> t2 -> List.length (pick t1 entry) + List.length (pick t2 entry) <= 1.
Proof.
  intros Hne. unfold pick.
  destruct (firstDescriptor (snd entry)) as [[addr ipt]|]; [|simpl; lia].
  destruct (String.eqb_spec ipt t1), (String.eqb_spec ipt t2); simpl;
    try lia. congruence.
Qed.

(** X7: a network gives at most one address, and to one type tag only: for
    two different tags, the addresses extracted for the one and for the
    other are together no more than there are networks. *)
Theorem findAddrs_one_per_network networks t1 t2 :
  t1 <> t2 ->
  exists r1 r2,
    findAddrs (VMap networks) t1 = Done r1 /\
    findAddrs (VMap networks) t2 = Done r2 /\
    List.length r1 + List.length r2 <= List.length networks.
Proof.
  intros Hne. exists (extracted t1 networks), (extracted t2 networks).
  rewrite !findAddrs_extracted. repeat split.
  induction networks as [|entry networks IH]; [simpl; lia|].
  rewrite !extracted_cons, !length_app. cbn [List.length].
  pose proof (pick_two entry Hne). lia.
Qed.

Lemma findAddrs_one_per_network_witness :
  exists r1 r2,
    findAddrs (VMap [net_fixed; net_floating]) "fixed" = Done r1 /\
    findAddrs (VMap [net_fixed; net_floating]) "floating" = Done r2 /\
    List.length r1 + List.length r2 <= 2.
Proof.
  apply (@findAddrs_one_per_network [net_fixed; net_floating]
           "fixed" "floating").
  discriminate.
Defined.

Lemma findAddrs_range_order_witness :
  exists r1 r2,
    findAddrs (VMap [net_fixed; net_floating]) "fixed" = Done r1 /\
    findAddrs (VMap [net_floating; net_fixed]) "fixed" = Done r2 /\
    Permutation r1 r2.
Proof.
  apply (@findAddrs_range_order [net_fixed; net_floating]
           [net_floating; net_fixed] "fixed").
  apply perm_swap.
Defined.

(** ** getAddressByName and NodeAddresses together *)

Lemma getAddressByName_failed api name e :
  getServerByName api name = Done (None, Some e) ->
  getAddressByName api name = Done ("", Some e).
Proof. intros H. unfold getAddressByName. now rewrite H. Qed.

Lemma getAddressByName_found api name srv fixed floating :
  getServerByName api name = Done (Some srv, None) ->
  findAddrs (Addresses srv) "fixed" = Done fixed ->
  findAddrs (Addresses srv) "floating" = Done floating ->
  getAddressByName api name
  = Done match firstNonEmpty [hd "" fixed; hd "" floating;
                              AccessIPv4 srv; AccessIPv6 srv] with
         | Some s => (s, None)
         | None => ("", Some ErrNoAddressFound)
         end.
Proof.
  intros Hsrv Hf Hfl.
  unfold getAddressByName. rewrite Hsrv. cbn [bind deref].
  rewrite Hf, Hfl. unfold firstNonEmpty.
  generalize (AccessIPv4 srv) (AccessIPv6 srv). intros v4 v6.
  destruct fixed as [|a fixed]; destruct floating as [|b floating];
    cbn [bind List.length Nat.leb index nth_error hd find String.eqb negb];
    repeat match goal with
           | |- context [String.eqb ?x ""] =>
               is_var x; destruct (String.eqb_spec x "");
               [subst x|];
               cbn [bind List.length Nat.leb index nth_error hd find
                    String.eqb negb]
           end;
    first [reflexivity | congruence].
Qed.

Lemma firstNonEmpty_Some candidates s :
  firstNonEmpty candidates = Some s -> In s candidates /\ s <> "".
Proof.
  unfold firstNonEmpty. intros H. apply find_some in H.
  destruct H as [Hin Hne]. split; [assumption|].
  apply negb_true_iff in Hne. now apply String.eqb_neq.
Qed.

(** X9: [getAddressByName] never panics and never returns an empty address
    as a success: it returns a non-empty address with no error, or the empty
    string with an error, which is the error of the name lookup or
    NoAddressFound. *)
Theorem getAddressByName_result api name :
  exists addr err,
    getAddressByName api name = Done (addr, err) /\
    match err with
    | None =>
        addr <> "" /\
        exists srv, getServerByName api name = Done (Some srv, None)
    | Some e =>
        addr = "" /\
        (getServerByName api name = Done (None, Some e) \/
         e = ErrNoAddressFound /\
         exists srv, getServerByName api name = Done (Some srv, None))
    end.
Proof.
  destruct (getServerByName_cases api name) as [[srv H]|[e H]].
  - destruct (findAddrs_Done (Addresses srv) "fixed") as [fixed Hf].
    destruct (findAddrs_Done (Addresses srv) "floating") as [floating Hfl].
    rewrite (getAddressByName_found _ _ H Hf Hfl).
    destruct (firstNonEmpty _) as [s|] eqn:E.
    + exists s, None. split; [reflexivity|]. split.
      * now apply firstNonEmpty_Some in E.
      * now exists srv.
    + exists "", (Some ErrNoAddressFound). split; [reflexivity|].
      split; [reflexivity|]. right. split; [reflexivity | now exists srv].
  - exists "", (Some e). split; [now apply getAddressByName_failed|].
    split; [reflexivity | now left].
Qed.

Lemma NodeAddresses_found {P : Type} (os : OpenStack P) name srv fixed floating :
  getServerByName (compute os) name = Done (Some srv, None) ->
  findAddrs (Addresses srv) "fixed" = Done fixed ->
  findAddrs (Addresses srv) "floating" = Done floating ->
  NodeAddresses os name
  = Done (AddToNodeAddresses
            (map (fun a => {| Type_ := NodeInternalIP; Address := a |}) fixed ++
             map (fun a => {| Type_ := NodeExternalIP; Address := a |}) floating)
            [ {| Type_ := NodeExternalIP; Address := AccessIPv6 srv |};
              {| Type_ := NodeExternalIP; Address := AccessIPv4 srv |} ],
          None).
Proof.
  intros Hsrv Hf Hfl.
  unfold NodeAddresses. rewrite Hsrv. cbn [bind deref].
  rewrite Hf, Hfl. cbn [bind].
  rewrite !fold_left_append. reflexivity.
Qed.

Lemma hd_nonempty (l : list string) s :
  hd "" l = s -> s <> "" -> In s l.
Proof. destruct l; simpl; intros H Hne; [congruence | now left]. Qed.

(** X10: the single address and the address list agree: every address that
    [getAddressByName] returns for a name is the address of one of the
    entries that [NodeAddresses] returns for that name. *)
Theorem getAddressByName_in_NodeAddresses {P : Type} (os : OpenStack P)
  name addr :
  getAddressByName (compute os) name = Done (addr, None) ->
  exists addrs,
    NodeAddresses os name = Done (addrs, None) /\
    In addr (map Address addrs).
Proof.
  intros Hget.
  destruct (getServerByName_cases (compute os) name) as [[srv H]|[e H]];
    [|rewrite (getAddressByName_failed _ _ H) in Hget; discriminate].
  destruct (findAddrs_Done (Addresses srv) "fixed") as [fixed Hf].
  destruct (findAddrs_Done (Addresses srv) "floating") as [floating Hfl].
  rewrite (getAddressByName_found _ _ H Hf Hfl) in Hget.
  rewrite (NodeAddresses_found os _ H Hf Hfl).
  destruct (firstNonEmpty _) as [s|] eqn:E; [|discriminate].
  injection Hget as ->. apply firstNonEmpty_Some in E. destruct E as [Hin Hne].
  destruct (AddToNodeAddresses_two
              (map (fun a => {| Type_ := NodeInternalIP; Address := a |}) fixed ++
               map (fun a => {| Type_ := NodeExternalIP; Address := a |}) floating)
              {| Type_ := NodeExternalIP; Address := AccessIPv6 srv |}
              {| Type_ := NodeExternalIP; Address := AccessIPv4 srv |})
    as (legacy & -> & _ & _ & _ & H6 & H4).
  eexists. split; [reflexivity|].
  rewrite in_map_iff.
  destruct Hin as [Hin|[Hin|[Hin|[Hin|[]]]]].
  - exists {| Type_ := NodeInternalIP; Address := addr |}. split; [reflexivity|].
    apply in_or_app; left. apply in_or_app; left.
    apply in_map. now apply hd_nonempty.
  - exists {| Type_ := NodeExternalIP; Address := addr |}. split; [reflexivity|].
    apply in_or_app; left. apply in_or_app; right.
    apply in_map. now apply hd_nonempty.
  - exists {| Type_ := NodeExternalIP; Address := AccessIPv4 srv |}.
    split; assumption.
  - exists {| Type_ := NodeExternalIP; Address := AccessIPv6 srv |}.
    split; assumption.
Qed.

Lemma getAddressByName_in_NodeAddresses_witness :
  exists addrs,
    NodeAddresses (sample_os (fun _ => goodPages [[server_b]])) "node-1"
    = Done (addrs, None) /\
    In "5.6.7.8" (map Address addrs).
Proof.
  apply (@getAddressByName_in_NodeAddresses unit
           (sample_os (fun _ => goodPages [[server_b]])) "node-1" "5.6.7.8").
  reflexivity.
Defined.

(** X11: after a successful lookup the address list is never empty (the
    legacy fields are entered even when they are empty strings), holds
    InternalIP and ExternalIP entries only, and its InternalIP entries are
    exactly the extracted "fixed" addresses. *)
Theorem NodeAddresses_kinds {P : Type} (os : OpenStack P) name srv fixed :
  getServerByName (compute os) name = Done (Some srv, None) ->
  findAddrs (Addresses srv) "fixed" = Done fixed ->
  exists addrs,
    NodeAddresses os name = Done (addrs, None) /\
    addrs <> [] /\
    In {| Type_ := NodeExternalIP; Address := AccessIPv6 srv |} addrs /\
    Forall (fun a => Type_ a = NodeInternalIP \/ Type_ a = NodeExternalIP)
           addrs /\
    (forall a, In {| Type_ := NodeInternalIP; Address := a |} addrs <->
               In a fixed).
Proof.
  intros H Hf.
  destruct (findAddrs_Done (Addresses srv) "floating") as [floating Hfl].
  rewrite (NodeAddresses_found os _ H Hf Hfl).
  destruct (AddToNodeAddresses_two
              (map (fun a => {| Type_ := NodeInternalIP; Address := a |}) fixed ++
               map (fun a => {| Type_ := NodeExternalIP; Address := a |}) floating)
              {| Type_ := NodeExternalIP; Address := AccessIPv6 srv |}
              {| Type_ := NodeExternalIP; Address := AccessIPv4 srv |})
    as (legacy & -> & (b6 & b4 & Hleg) & _ & _ & H6 & H4).
  eexists. split; [reflexivity|].
  assert (Hlegacy : forall a, In a legacy -> Type_ a = NodeExternalIP).
  { intros a Ha. subst legacy. apply in_app_or in Ha.
    destruct b6, b4; simpl in Ha; destruct Ha as [Ha|Ha];
      try destruct Ha as [<-|[]]; try reflexivity; contradiction. }
  split; [|split; [exact H6 | split]].
  - intros Hnil. rewrite Hnil in H6. exact H6.
  - apply Forall_forall. intros a Ha.
    apply in_app_or in Ha. destruct Ha as [Ha|Ha].
    + apply in_app_or in Ha. destruct Ha as [Ha|Ha];
        apply in_map_iff in Ha; destruct Ha as (x & <- & _);
        [now left | now right].
    + right. now apply Hlegacy.
  - intros a. split.
    + intros Ha. apply in_app_or in Ha. destruct Ha as [Ha|Ha].
      * apply in_app_or in Ha. destruct Ha as [Ha|Ha];
          apply in_map_iff in Ha; destruct Ha as (x & Hx & Hin).
        -- now injection Hx as <-.
        -- discriminate.
      * apply Hlegacy in Ha. discriminate.
    + intros Ha. apply in_or_app; left. apply in_or_app; left.
      now apply (in_map (fun a => {| Type_ := NodeInternalIP; Address := a |})).
Qed.

Lemma NodeAddresses_kinds_witness :
  exists addrs,
    NodeAddresses (sample_os (fun _ => goodPages [[server_c]])) "node-1"
    = Done (addrs, None) /\
    addrs <> [] /\
    In {| Type_ := NodeExternalIP; Address := "" |} addrs.
Proof.
  destruct (@NodeAddresses_kinds unit
              (sample_os (fun _ => goodPages [[server_c]])) "node-1"
              server_c [] eq_refl eq_refl)
    as (addrs & H & Hne & H6 & _).
  exists addrs. repeat split; assumption.
Defined.

(** ** The identity resolver: what every run returns *)

(** X12: [parseMetadataUUID] returns a non-empty identifier with no error or
    the empty string with an error, and never anything else; in particular
    JSON [null] and an object whose "uuid" is [null] are errors. *)
Theorem parseMetadataUUID_result json_parse jsonData :
  (exists e, parseMetadataUUID json_parse jsonData = ("", Some e)) \/
  (exists uuid, uuid <> "" /\
                parseMetadataUUID json_parse jsonData = (uuid, None) /\
                exists members, json_parse jsonData = Ok (VMap members) /\
                                lacks_uuid members = false).
Proof.
  unfold parseMetadataUUID, json_Unmarshal.
  destruct (json_parse jsonData) as [v|e]; [|left; now exists e].
  destruct v as [| | | | |members|]; try (left; eexists; reflexivity).
  destruct (decodeUUID members "") as [uuid|e] eqn:Hd; [|left; now exists e].
  destruct (String.eqb_spec uuid ""); [left; eexists; reflexivity|].
  right. exists uuid. split; [assumption|]. split; [reflexivity|].
  exists members. split; [reflexivity|].
  destruct (lacks_uuid members) eqn:Hl; [|reflexivity].
  rewrite (decodeUUID_lacks _ "" Hl) in Hd. congruence.
Qed.

(** X13: whatever the machine and the metadata service answer, the resolver
    makes no HTTP request or exactly one, to the metadata URL; it makes none
    only when the marker file gave the identifier; an identifier returned
    without error is never empty, and an error always comes with the empty
    identifier and after the request. *)
Theorem readInstanceID_result json_parse h :
  exists id err trace,
    readInstanceID json_parse h = ((id, err), trace) /\
    (trace = [] \/ trace = [metadataUrl]) /\
    (trace = [] ->
     err = None /\
     exists content,
       ioutil_ReadFile h "/var/lib/cloud/data/instance-id" = Ok content /\
       id = TrimSpace content) /\
    (err = None -> id <> "") /\
    (err <> None -> id = "" /\ trace = [metadataUrl]).
Proof.
  unfold readInstanceID.
  assert (Hweb :
    exists id err,
      match http_Get h metadataUrl with
      | Ok resp =>
          if negb (Response.StatusCode resp =? 200)%Z
          then ("",
                Some (Errorf
                        ("got unexpected status code when reading metadata from "
                         ++ metadataUrl ++ ": " ++ Response.Status resp)%string),
                [metadataUrl])
          else
            match Response.Body resp with
            | Ok bodyBytes =>
                let '(instanceID, err) :=
                  parseMetadataUUID json_parse bodyBytes in
                match err with
                | Some err0 => ("", Some err0, [metadataUrl])
                | None => (instanceID, None, [metadataUrl])
                end
            | Err err => ("", Some err, [metadataUrl])
            end
      | Err err => ("", Some err, [metadataUrl])
      end = ((id, err), [metadataUrl]) /\
      (err = None -> id <> "") /\ (err <> None -> id = "")).
  { destruct (http_Get h metadataUrl) as [resp|e];
      [|exists "", (Some e); repeat split; congruence].
    destruct (negb (Response.StatusCode resp =? 200)%Z);
      [eexists "", (Some _); repeat split; congruence|].
    destruct (Response.Body resp) as [body|e];
      [|exists "", (Some e); repeat split; congruence].
    destruct (parseMetadataUUID_cases json_parse body)
      as [[e ->]|(uuid & Hne & ->)].
    - exists "", (Some e); repeat split; congruence.
    - exists uuid, None; repeat split; congruence. }
  destruct Hweb as (wid & werr & Hweb & Hok & Hfail).
  destruct (ioutil_ReadFile h _) as [content|e0] eqn:Hfile.
  - destruct (String.eqb_spec (TrimSpace content) "") as [Hempty|Hne];
      cbn [negb].
    + rewrite Hweb. exists wid, werr, [metadataUrl].
      split; [reflexivity|]. split; [now right|].
      split; [discriminate|]. split; [assumption|].
      intros H. split; [now apply Hfail | reflexivity].
    + exists (TrimSpace content), None, [].
      split; [reflexivity|]. split; [now left|].
      split; [intros _; split; [reflexivity | now exists content]|].
      split; [intros _; assumption | congruence].
  - rewrite Hweb. exists wid, werr, [metadataUrl].
    split; [reflexivity|]. split; [now right|].
    split; [discriminate|]. split; [assumption|].
    intros H. split; [now apply Hfail | reflexivity].
Qed.

Lemma readInstanceID_result_witness :
  exists id err trace,
    readInstanceID parse_sample (host_without_file 200 sample_metadata)
    = ((id, err), trace) /\
    trace = [metadataUrl] /\ err = None /\ id <> "".
Proof.
  destruct (readInstanceID_result parse_sample
              (host_without_file 200 sample_metadata))
    as (id & err & trace & Heq & _ & _ & Hok & _).
  vm_compute in Heq. injection Heq as <- <- <-.
  exists "xyz", None, [metadataUrl].
  repeat split. apply Hok. reflexivity.
Defined.

(** ** Construction and registration *)

(** X14: [newOpenStack] returns a provider or an error, never both and never
    neither; it returns a provider exactly when authentication and the two
    endpoint resolutions succeed, whatever the identity resolver did, and
    that provider holds the resolved clients, the region and the options of
    the configuration and the identifier the resolver returned. *)
Theorem newOpenStack_cases {P : Type}
  (authenticate : AuthOptions.t -> result P)
  (newNetwork newCompute : P -> EndpointOpts.t -> result ServiceClient)
  (json_parse : string -> result value) (host : Host) (cfg : Config) :
  let run := newOpenStack authenticate newNetwork newCompute json_parse
                          host cfg in
  let opts := {| EndpointOpts.Region := Global.Region (Global cfg) |} in
  ((exists os, run = (Some os, None)) \/ (exists e, run = (None, Some e))) /\
  ((exists os, run = (Some os, None)) <->
   (exists p net comp, authenticate (toAuthOptions cfg) = Ok p /\
                       newNetwork p opts = Ok net /\
                       newCompute p opts = Ok comp)) /\
  (forall os, run = (Some os, None) ->
     authenticate (toAuthOptions cfg) = Ok (provider os) /\
     newNetwork (provider os) opts = Ok (network os) /\
     newCompute (provider os) opts = Ok (compute os) /\
     region os = Global.Region (Global cfg) /\
     lbOpts os = LoadBalancer cfg /\
     routeOpts os = Route cfg /\
     localInstanceID os = fst (fst (readInstanceID json_parse host))).
Proof.
  cbv zeta. unfold newOpenStack.
  destruct (authenticate (toAuthOptions cfg)) as [p|e].
  2:{ split; [right; now exists e|]. split; [split|].
      - intros [os H]; discriminate.
      - intros (p & net & comp & H & _); discriminate.
      - intros os H; discriminate. }
  destruct (fst (readInstanceID json_parse host)) as [id err].
  destruct (newNetwork p _) as [net|e] eqn:Hn.
  2:{ split; [right; now exists e|]. split; [split|].
      - intros [os H]; discriminate.
      - intros (p' & net & comp & Hp & Hn' & _).
        injection Hp as <-. congruence.
      - intros os H; discriminate. }
  destruct (newCompute p _) as [comp|e] eqn:Hc.
  2:{ split; [right; now exists e|]. split; [split|].
      - intros [os H]; discriminate.
      - intros (p' & net' & comp & Hp & _ & Hc').
        injection Hp as <-. congruence.
      - intros os H; discriminate. }
  split; [left; eexists; reflexivity|]. split; [split|].
  - intros _. now exists p, net, comp.
  - intros _. eexists; reflexivity.
  - intros os H. injection H as <-. cbn. repeat split; assumption.
Qed.

Lemma newOpenStack_cases_witness :
  (exists os,
      newOpenStack (fun _ => Ok tt) (fun _ _ => Ok (fun _ => []))
                   (fun _ _ => Ok (computeAPI [server_a] 0))
                   parse_sample (host_with_file "i-0042") sample_cfg
      = (Some os, None)) /\
  ~ (exists os,
        newOpenStack (fun _ => Ok tt)
                     (fun _ _ => Err (LibError "no neutron endpoint"))
                     (fun _ _ => Ok (computeAPI [server_a] 0))
                     parse_sample (host_with_file "i-0042") sample_cfg
        = (Some os, None)).
Proof.
  split.
  - apply (@newOpenStack_cases unit (fun _ => Ok tt)
             (fun _ _ => Ok (fun _ => []))
             (fun _ _ => Ok (computeAPI [server_a] 0))
             parse_sample (host_with_file "i-0042") sample_cfg).
    exists tt, (fun _ => []), (computeAPI [server_a] 0). now repeat split.
  - intros H.
    apply (@newOpenStack_cases unit (fun _ => Ok tt)
             (fun _ _ => Err (LibError "no neutron endpoint"))
             (fun _ _ => Ok (computeAPI [server_a] 0))
             parse_sample (host_with_file "i-0042") sample_cfg) in H.
    destruct H as (p & net & comp & _ & Hn & _). discriminate Hn.
Defined.

(** X15: the registered constructor fails on a nil reader with "no OpenStack
    cloud provider config file given" whatever the SDK would answer, and
    fails with the error of the configuration reader before anything is
    built; a provider it returns comes from a configuration that was read
    without error, and [GetZone] on it reports the region of that
    configuration, with an empty failure domain and no error. *)
Theorem registered_provider {P : Type}
  (gcfg_ReadInto : Config -> string -> Config * option error)
  (authenticate : AuthOptions.t -> result P)
  (newNetwork newCompute : P -> EndpointOpts.t -> result ServiceClient)
  (json_parse : string -> result value) (host : Host) :
  let make := registered gcfg_ReadInto authenticate newNetwork newCompute
                         json_parse host in
  make None
  = (None, Some (Errorf "no OpenStack cloud provider config file given")) /\
  (forall text cfg e,
      gcfg_ReadInto zeroConfig text = (cfg, Some e) ->
      make (Some text) = (None, Some e)) /\
  (forall config os,
      make config = (Some os, None) ->
      exists text cfg,
        config = Some text /\
        gcfg_ReadInto zeroConfig text = (cfg, None) /\
        GetZone os
        = ({| Zone.FailureDomain := "";
              Zone.Region := Global.Region (Global cfg) |}, None)).
Proof.
  cbv zeta. unfold registered, readConfig.
  split; [reflexivity|]. split.
  - intros text cfg e H. now rewrite H.
  - intros [text|] os H; [|discriminate].
    destruct (gcfg_ReadInto zeroConfig text) as [cfg [e|]] eqn:Hr;
      [discriminate|].
    exists text, cfg. split; [reflexivity|]. split; [exact Hr|].
    unfold newOpenStack in H.
    destruct (authenticate _) as [p|]; [|discriminate].
    destruct (fst (readInstanceID json_parse host)) as [id err].
    destruct (newNetwork p _) as [net|]; [|discriminate].
    destruct (newCompute p _) as [comp|]; [|discriminate].
    injection H as <-. reflexivity.
Qed.

Lemma registered_provider_witness :
  registered (fun cfg _ => (cfg, Some (LibError "expected section header")))
             (fun _ => Ok tt) (fun _ _ => Ok (fun _ => []))
             (fun _ _ => Ok (fun _ => [])) parse_sample (host_with_file "")
             (Some "auth-url")
  = (None, Some (LibError "expected section header")) /\
  exists os,
    registered (fun _ _ => (sample_cfg, None))
               (fun _ => Ok tt) (fun _ _ => Ok (fun _ => []))
               (fun _ _ => Ok (fun _ => [])) parse_sample (host_with_file "")
               (Some "[Global]")
    = (Some os, None) /\
    GetZone os = ({| Zone.FailureDomain := ""; Zone.Region := "RegionOne" |},
                  None).
Proof.
  split.
  - apply (@registered_provider unit
             (fun cfg _ => (cfg, Some (LibError "expected section header")))
             (fun _ => Ok tt) (fun _ _ => Ok (fun _ => []))
             (fun _ _ => Ok (fun _ => [])) parse_sample (host_with_file ""))
      with (cfg := zeroConfig).
    reflexivity.
  - eexists. split; [reflexivity|].
    destruct (@registered_provider unit
                (fun _ _ => (sample_cfg, None))
                (fun _ => Ok tt) (fun _ _ => Ok (fun _ => []))
                (fun _ _ => Ok (fun _ => [])) parse_sample (host_with_file ""))
      as (_ & _ & H).
    destruct (H (Some "[Global]") _ eq_refl) as (text & cfg & _ & Hr & Hz).
    injection Hr as <-. exact Hz.
Defined.

(** ** The name filter: one filter per name *)

Lemma list_ascii_inj s t :
  list_ascii_of_string s = list_ascii_of_string t -> s = t.
Proof.
  intros H. rewrite <- (string_of_list_ascii_of_string s),
    <- (string_of_list_ascii_of_string t). now rewrite H.
Qed.

Lemma map_Lit_inj l1 l2 : map Lit l1 = map Lit l2 -> l1 = l2.
Proof.
  revert l2. induction l1 as [|a l1 IH]; intros [|b l2] H; simpl in H;
    try discriminate; [reflexivity|].
  injection H as -> H. f_equal. now apply IH.
Qed.

(** X16: different names never share a filter: the options that the exact
    lookup sends for two different names differ, so escaping loses nothing
    of the name. *)
Theorem nameFilter_distinct n1 n2 :
  n1 <> n2 ->
  nameFilter n1 <> nameFilter n2 /\ byNameOpts n1 <> byNameOpts n2.
Proof.
  intros Hne.
  assert (H : nameFilter n1 <> nameFilter n2).
  { intros Heq. apply Hne.
    pose proof (tokens_nameFilter n1) as H1.
    rewrite Heq, tokens_nameFilter in H1.
    injection H1 as H1. apply app_inv_tail in H1.
    apply map_Lit_inj, list_ascii_inj in H1. now symmetry. }
  split; [exact H|].
  intros Heq. apply H. exact (f_equal ListOpts.Name Heq).
Qed.

Lemma nameFilter_distinct_witness :
  nameFilter "a.b" <> nameFilter "axb" /\ byNameOpts "a.b" <> byNameOpts "axb".
Proof.
  apply (@nameFilter_distinct "a.b" "axb"). discriminate.
Defined.
